(** * The ML vector codec and the version utility of aerospike-client-c

    A shallow embedding of
    - [as_ml_vector.c]  (element sizes, the four vector constructors,
      [as_ml_vector_serialize], [as_ml_vector_deserialize]) with the constants
      of [as_ml_vector.h], and
    - [as_version.c]    ([as_version_from_string], [as_version_to_string],
      [as_version_compare]),
    followed by the properties of the two components.

    Conventions.  A [uint32_t] is a [Z] and every operation that can wrap is
    written with its [mod 2^32].  Memory is a [list byte]; a pointer that may
    be [NULL] is an [option].  An access outside the object it addresses has
    no defined result in C: such a run is [Undefined].  An output parameter is
    an argument (what the object held before the call) and a component of the
    result (what it holds after). *)

From Stdlib Require Import String Ascii.
From Stdlib Require Import ZArith NArith List Bool Lia.
From Stdlib Require Import Strings.Byte.
Import ListNotations.

Local Open Scope Z_scope.

(** ** Runs of C code *)

Inductive run (A : Type) : Type :=
| Ret (a : A)
| Undefined.

Arguments Ret {A} a.
Arguments Undefined {A}.

Definition bind {A B : Type} (m : run A) (k : A -> run B) : run B :=
  match m with
  | Ret a => k a
  | Undefined => Undefined
  end.

Notation "x <- m ;; k" := (bind m (fun x => k))
  (at level 61, m at next level, right associativity).

(** ** Bytes and 32-bit words in memory *)

Definition wrap32 (x : Z) : Z := x mod 2 ^ 32.

Definition Z_of_byte (b : byte) : Z := Z.of_N (Byte.to_N b).

Definition byte_of_Z (z : Z) : byte :=
  match Byte.of_N (Z.to_N (z mod 256)) with
  | Some b => b
  | None => x00
  end.

(** The four bytes of a 32-bit word, most significant first. *)
Definition encode_be32 (x : Z) : list byte :=
  [ byte_of_Z (x / 16777216); byte_of_Z (x / 65536);
    byte_of_Z (x / 256); byte_of_Z x ].

Definition encode_le32 (x : Z) : list byte := rev (encode_be32 x).

Definition decode_be32 (bs : list byte) : Z :=
  match bs with
  | [b0; b1; b2; b3] =>
      Z_of_byte b0 * 16777216 + Z_of_byte b1 * 65536
      + Z_of_byte b2 * 256 + Z_of_byte b3
  | _ => 0
  end.

Definition decode_le32 (bs : list byte) : Z := decode_be32 (rev bs).

(** [len] bytes of [buf] from offset [off]; outside [buf] the read is
    undefined. *)
Definition slice (buf : list byte) (off len : Z) : run (list byte) :=
  if (0 <=? off) && (0 <=? len) && (off + len <=? Z.of_nat (length buf))
  then Ret (firstn (Z.to_nat len) (skipn (Z.to_nat off) buf))
  else Undefined.

(** [bs] written into [buf] at offset [off]; outside [buf] the write is
    undefined. *)
Definition store (buf : list byte) (off : Z) (bs : list byte) : run (list byte) :=
  if (0 <=? off) && (off + Z.of_nat (length bs) <=? Z.of_nat (length buf))
  then Ret (firstn (Z.to_nat off) buf ++ bs
              ++ skipn (Z.to_nat off + length bs) buf)
  else Undefined.

(** ** aerospike-common: status codes, [as_vector], [as_bytes] *)

(** Modelled from the spec: [as_status.h] is not among the sources; these are
    the status codes [as_ml_vector.c] returns. *)
Inductive as_status : Type :=
| AEROSPIKE_OK
| AEROSPIKE_ERR_PARAM
| AEROSPIKE_ERR_CLIENT.

(** Modelled from the spec: [as_vector.h] is not among the sources.
    [as_vector]: [list] is the item storage ([NULL] or the bytes of the
    [size] items appended so far, [item_size] bytes each).  The allocation
    bookkeeping ([capacity], [flags]) is left out. *)
Record as_vector : Type := mk_vector {
  vec_list : option (list byte);
  vec_size : Z;
  vec_item_size : Z
}.

(** Modelled from the spec: [as_vector_init(vector, item_size, capacity)] of
    [as_vector.h], an empty vector. *)
Definition as_vector_init (item_size capacity : Z) : as_vector :=
  {| vec_list := Some []; vec_size := 0; vec_item_size := item_size |}.

(** Modelled from the spec: [as_vector_append(vector, value)] of
    [as_vector.h], [value] being the [item_size] bytes the pointer addresses;
    they are copied behind the items present. *)
Definition as_vector_append (vector : as_vector) (value : list byte) : as_vector :=
  {| vec_list := option_map (fun l => l ++ value) (vec_list vector);
     vec_size := wrap32 (vec_size vector + 1);
     vec_item_size := vec_item_size vector |}.

(** Modelled from the spec: [as_bytes.h] is not among the sources.
    [as_bytes]: [value] is the buffer ([NULL] or its bytes), [size] the
    number of bytes in use. *)
Record as_bytes : Type := mk_bytes {
  bytes_value : option (list byte);
  bytes_size : Z;
  bytes_capacity : Z;
  bytes_free : bool
}.

(** Modelled from the spec: [as_bytes_init_wrap(bytes, value, size, free)]
    of [as_bytes.h]. *)
Definition as_bytes_init_wrap (value : list byte) (size : Z) (free : bool) : as_bytes :=
  {| bytes_value := Some value; bytes_size := size;
     bytes_capacity := size; bytes_free := free |}.

(** ** as_ml_vector.h *)

Definition AS_ML_VECTOR_MAGIC_NUMBER : Z := 0x56454354.
Definition AS_ML_VECTOR_VERSION : Z := 0x00000001.

(** [as_ml_vector_element_type] is a C enumeration: the decoder casts any
    32-bit value to it, so it is its integer value here. *)
Definition as_ml_vector_element_type : Type := Z.
Definition AS_ML_VECTOR_FLOAT32 : as_ml_vector_element_type := 1.
Definition AS_ML_VECTOR_FLOAT64 : as_ml_vector_element_type := 2.
Definition AS_ML_VECTOR_INT32 : as_ml_vector_element_type := 3.
Definition AS_ML_VECTOR_INT64 : as_ml_vector_element_type := 4.

(** ** as_ml_vector.c *)

Definition as_ml_vector_element_size (element_type : as_ml_vector_element_type) : Z :=
  if (element_type =? AS_ML_VECTOR_FLOAT32) || (element_type =? AS_ML_VECTOR_INT32)
  then 4
  else if (element_type =? AS_ML_VECTOR_FLOAT64) || (element_type =? AS_ML_VECTOR_INT64)
  then 8
  else 0.

(** [for (uint32_t i = start; i < start + n; i++) as_vector_append(vector, p i)]
    where [read i] fetches the bytes the pointer of round [i] addresses. *)
Fixpoint append_loop (read : Z -> run (list byte)) (n : nat) (i : Z)
    (vector : as_vector) : run as_vector :=
  match n with
  | O => Ret vector
  | S n' =>
      value <- read i ;;
      append_loop read n' (i + 1) (as_vector_append vector value)
  end.

(** The body shared by the four constructors; [width] is [sizeof] of the
    element type, [data] the caller's array as the bytes it occupies. *)
Definition ml_vector_init (width : Z) (vector : option as_vector)
    (data : option (list byte)) (count : Z)
    : run (as_status * option as_vector) :=
  match vector, data with
  | Some _, Some arr =>
      if count =? 0 then Ret (AEROSPIKE_ERR_PARAM, vector)
      else
        v <- append_loop (fun i => slice arr (i * width) width)
               (Z.to_nat count) 0 (as_vector_init width count) ;;
        Ret (AEROSPIKE_OK, Some v)
  | _, _ => Ret (AEROSPIKE_ERR_PARAM, vector)
  end.

(** [sizeof(float)] and [sizeof(int32_t)] are 4, [sizeof(double)] and
    [sizeof(int64_t)] are 8. *)
Definition as_ml_vector_init_float32 := ml_vector_init 4.
Definition as_ml_vector_init_float64 := ml_vector_init 8.
Definition as_ml_vector_init_int32 := ml_vector_init 4.
Definition as_ml_vector_init_int64 := ml_vector_init 8.

Section Platform.

(** The byte order of the machine the code runs on. *)
Variable host_big_endian : bool.

(** [malloc]: [NULL], or a fresh buffer whose contents are indeterminate. *)
Variable malloc : Z -> option (list byte).

Definition native_encode32 (x : Z) : list byte :=
  if host_big_endian then encode_be32 x else encode_le32 x.

Definition native_decode32 (bs : list byte) : Z :=
  if host_big_endian then decode_be32 bs else decode_le32 bs.

(** Modelled from the spec: [cf_byte_order.h] is not among the sources.
    [cf_swap_to_be32(x)] is the word whose bytes in memory are those of [x],
    most significant first; [cf_swap_from_be32] is its inverse. *)
Definition cf_swap_to_be32 (x : Z) : Z := native_decode32 (encode_be32 x).
Definition cf_swap_from_be32 (x : Z) : Z := decode_be32 (native_encode32 x).

(** [*(uint32_t* )(buf + off)] read and written. *)
Definition load32 (buf : list byte) (off : Z) : run Z :=
  bs <- slice buf off 4 ;; Ret (native_decode32 bs).

Definition store32 (buf : list byte) (off : Z) (x : Z) : run (list byte) :=
  store buf off (native_encode32 x).

Definition as_ml_vector_serialize (vector : option as_vector)
    (element_type : as_ml_vector_element_type) (bytes : option as_bytes)
    : run (as_status * option as_bytes) :=
  match vector, bytes with
  | Some v, Some _ =>
      match vec_list v with
      | None => Ret (AEROSPIKE_ERR_PARAM, bytes)
      | Some list =>
          if vec_size v =? 0 then Ret (AEROSPIKE_ERR_PARAM, bytes)
          else
            let element_size := as_ml_vector_element_size element_type in
            if element_size =? 0 then Ret (AEROSPIKE_ERR_PARAM, bytes)
            else if negb (vec_item_size v =? element_size)
            then Ret (AEROSPIKE_ERR_PARAM, bytes)
            else
              let data_size := wrap32 (vec_size v * element_size) in
              let total_size := wrap32 (16 + data_size) in
              match malloc total_size with
              | None => Ret (AEROSPIKE_ERR_CLIENT, bytes)
              | Some buffer =>
                  buffer <- store32 buffer 0 (cf_swap_to_be32 AS_ML_VECTOR_MAGIC_NUMBER) ;;
                  buffer <- store32 buffer 4 (cf_swap_to_be32 AS_ML_VECTOR_VERSION) ;;
                  buffer <- store32 buffer 8 (cf_swap_to_be32 (vec_size v)) ;;
                  buffer <- store32 buffer 12 (cf_swap_to_be32 (wrap32 element_type)) ;;
                  data <- slice list 0 data_size ;;
                  buffer <- store buffer 16 data ;;
                  Ret (AEROSPIKE_OK,
                       Some (as_bytes_init_wrap buffer total_size true))
              end
      end
  | _, _ => Ret (AEROSPIKE_ERR_PARAM, bytes)
  end.

Definition as_ml_vector_deserialize (bytes : option as_bytes)
    (vector : option as_vector) (element_type : option as_ml_vector_element_type)
    : run (as_status * option as_vector * option as_ml_vector_element_type) :=
  let fail := Ret (AEROSPIKE_ERR_PARAM, vector, element_type) in
  match bytes, vector, element_type with
  | Some b, Some _, Some _ =>
      match bytes_value b with
      | None => fail
      | Some p =>
          if bytes_size b <? 16 then fail
          else
            magic <- load32 p 0 ;;
            if negb (cf_swap_from_be32 magic =? AS_ML_VECTOR_MAGIC_NUMBER) then fail
            else
              version <- load32 p 4 ;;
              if negb (cf_swap_from_be32 version =? AS_ML_VECTOR_VERSION) then fail
              else
                element_count <- load32 p 8 ;;
                let element_count := cf_swap_from_be32 element_count in
                element_type_raw <- load32 p 12 ;;
                let elem_type := cf_swap_from_be32 element_type_raw in
                let element_size := as_ml_vector_element_size elem_type in
                if element_size =? 0 then fail
                else
                  let expected_data_size := wrap32 (element_count * element_size) in
                  if negb (bytes_size b =? wrap32 (16 + expected_data_size)) then fail
                  else
                    v <- append_loop
                           (fun i => slice p (16 + wrap32 (i * element_size)) element_size)
                           (Z.to_nat element_count) 0
                           (as_vector_init element_size element_count) ;;
                    Ret (AEROSPIKE_OK, Some v, Some elem_type)
      end
  | _, _, _ => fail
  end.

End Platform.

(** ** as_version.h and as_version.c *)

(** Modelled from the spec: [as_version.h] is not among the sources.
    [as_version]: four [uint16_t] components. *)
Record as_version : Type := mk_version {
  major : N;
  minor : N;
  patch : N;
  build : N
}.

Definition set_major (n : N) (ver : as_version) : as_version :=
  {| major := n; minor := minor ver; patch := patch ver; build := build ver |}.
Definition set_minor (n : N) (ver : as_version) : as_version :=
  {| major := major ver; minor := n; patch := patch ver; build := build ver |}.
Definition set_patch (n : N) (ver : as_version) : as_version :=
  {| major := major ver; minor := minor ver; patch := n; build := build ver |}.
Definition set_build (n : N) (ver : as_version) : as_version :=
  {| major := major ver; minor := minor ver; patch := patch ver; build := n |}.

(** [<ctype.h>] in the C locale, on [(unsigned char)c]. *)
Definition isspace (c : ascii) : bool :=
  let n := N_of_ascii c in
  (n =? 32)%N || ((9 <=? n)%N && (n <=? 13)%N).

Definition isdigit (c : ascii) : bool :=
  let n := N_of_ascii c in
  (48 <=? n)%N && (n <=? 57)%N.

Definition is_nul (c : ascii) : bool := (N_of_ascii c =? 0)%N.

Definition is_dot (c : ascii) : bool := (N_of_ascii c =? 46)%N.

(** A C string is the characters before its terminating NUL. *)

(** [while ( *str && isspace((unsigned char)*str)) str++;] *)
Fixpoint skip_whitespace (str : string) : string :=
  match str with
  | EmptyString => EmptyString
  | String c rest =>
      if negb (is_nul c) && isspace c then skip_whitespace rest else str
  end.

(** The copy loop: what [buf] holds when it ends, [n] characters being
    already in it. *)
Fixpoint copy_numeric (str : string) (n : Z) : string :=
  match str with
  | EmptyString => EmptyString
  | String c rest =>
      if negb (is_nul c) && (n <? 64 - 1)
      then if isdigit c || is_dot c
           then String c (copy_numeric rest (n + 1))
           else EmptyString
      else EmptyString
  end.

(** The value of the decimal digits at the head of [s], continuing [acc],
    and the input behind them. *)
Fixpoint scan_digits (s : string) (acc : N) : N * string :=
  match s with
  | EmptyString => (acc, s)
  | String c rest =>
      if isdigit c
      then scan_digits rest (acc * 10 + (N_of_ascii c - 48))%N
      else (acc, s)
  end.

(** One [%hu] directive of [sscanf] on an input without white space or
    sign. *)
Inductive conversion : Type :=
| Converted (value : N) (rest : string)
| Unrepresentable
| MatchingFailure
| InputFailure.

Definition scan_hu (s : string) : conversion :=
  match s with
  | EmptyString => InputFailure
  | String c _ =>
      if isdigit c
      then let (value, rest) := scan_digits s 0 in
           if (value <=? 65535)%N then Converted value rest
           else Unrepresentable
      else MatchingFailure
  end.

(** [sscanf(buf, "%hu.%hu.%hu.%hu", ...)] from its [k]-th directive on
    ([setters] are the stores of the directives left, [assigned] the number
    of items assigned so far): the number it returns, EOF being [-1], and
    the version as the stores leave it.  A value that an [unsigned short]
    cannot hold makes the behaviour undefined. *)
Fixpoint sscanf_hu_dots (setters : list (N -> as_version -> as_version))
    (input : string) (assigned : Z) (ver : as_version) : run (Z * as_version) :=
  match setters with
  | [] => Ret (assigned, ver)
  | set :: setters' =>
      let after_dot :=
        if assigned =? 0 then Some input
        else match input with
             | String c rest => if is_dot c then Some rest else None
             | EmptyString => None
             end in
      match after_dot with
      | None => Ret (assigned, ver)
      | Some input' =>
          match scan_hu input' with
          | Converted value rest =>
              sscanf_hu_dots setters' rest (assigned + 1) (set value ver)
          | Unrepresentable => Undefined
          | MatchingFailure => Ret (assigned, ver)
          | InputFailure => Ret (if assigned =? 0 then -1 else assigned, ver)
          end
      end
  end.

Definition as_version_from_string (ver : as_version) (str : string)
    : run (bool * as_version) :=
  let buf := copy_numeric (skip_whitespace str) 0 in
  r <- sscanf_hu_dots [set_major; set_minor; set_patch; set_build] buf 0 ver ;;
  let (rv, ver) := r in
  if rv <? 3 then Ret (false, ver)
  else if rv =? 3 then Ret (true, set_build 0 ver)
  else Ret (true, ver).

(** [%hu]: plain decimal. *)
Definition digit_char (d : N) : ascii := ascii_of_N (48 + d).

Fixpoint print_digits (fuel : nat) (n : N) (acc : string) : string :=
  match fuel with
  | O => acc
  | S fuel' =>
      let acc' := String (digit_char (n mod 10)) acc in
      if (n / 10 =? 0)%N then acc' else print_digits fuel' (n / 10) acc'
  end.

Definition print_hu (n : N) : string :=
  print_digits (S (N.to_nat (N.log2 n))) n EmptyString.

Definition version_text (ver : as_version) : string :=
  (print_hu (major ver) ++ "." ++ print_hu (minor ver) ++ "."
   ++ print_hu (patch ver) ++ "." ++ print_hu (build ver))%string.

(** [snprintf(str, size, "%hu.%hu.%hu.%hu", ...)]: what [str] holds after
    the call; at most [size - 1] characters are written before the NUL, and
    nothing when [size] is 0. *)
Definition as_version_to_string (ver : as_version) (str : string) (size : Z) : string :=
  if size =? 0 then str
  else substring 0 (Z.to_nat (size - 1)) (version_text ver).

Definition as_version_compare (ver1 ver2 : as_version) : Z :=
  if negb (major ver1 =? major ver2)%N then Z.of_N (major ver1) - Z.of_N (major ver2)
  else if negb (minor ver1 =? minor ver2)%N then Z.of_N (minor ver1) - Z.of_N (minor ver2)
  else if negb (patch ver1 =? patch ver2)%N then Z.of_N (patch ver1) - Z.of_N (patch ver2)
  else if negb (build ver1 =? build ver2)%N then Z.of_N (build ver1) - Z.of_N (build ver2)
  else 0.


(** ** The vector scan example: [vector_scan_callback] *)

(** One digit of [%x]. *)
Definition hex_digit (d : Z) : byte :=
  byte_of_Z (if d <? 10 then 48 + d else 87 + d).

(** [sprintf(dst, "%02x", b)] for an [uint8_t]: two digits and the
    terminating NUL. *)
Definition sprintf_02x (b : byte) : list byte :=
  [hex_digit (Z_of_byte b / 16); hex_digit (Z_of_byte b mod 16); x00].

(** [buf[off]]. *)
Definition load8 (buf : list byte) (off : Z) : run byte :=
  bs <- slice buf off 1 ;;
  match bs with
  | [b] => Ret b
  | _ => Undefined
  end.

(** [for (int i = ...; i < 20; i++) sprintf(&digest_str[i * 2], "%02x", digest[i]);]
    with [n] rounds left. *)
Fixpoint digest_loop (digest : list byte) (n : nat) (i : Z)
    (digest_str : list byte) : run (list byte) :=
  match n with
  | O => Ret digest_str
  | S n' =>
      b <- load8 digest i ;;
      digest_str <- store digest_str (i * 2) (sprintf_02x b) ;;
      digest_loop digest n' (i + 1) digest_str
  end.

(** [vector_scan_callback]: [digest_str] is the local array of 41 characters
    with what it holds on entry; the result is the value returned and
    [digest_str] as the [LOG] calls read it.  The [LOG] calls, and with them
    the arguments [namespace], [set], [distance] and [udata], which nothing
    else uses, are left out. *)
Definition vector_scan_callback (digest : list byte) (digest_str : list byte)
    : run (bool * list byte) :=
  digest_str <- digest_loop digest 20 0 digest_str ;;
  digest_str <- store digest_str 40 [x00] ;;
  Ret (true, digest_str).

(** ** Vocabulary of the statements *)

(** The header field at offset [off] of a blob: four bytes, most significant
    first. *)
Definition header_field (p : list byte) (off : Z) : Z :=
  decode_be32 (firstn 4 (skipn (Z.to_nat off) p)).

Definition blob_magic (p : list byte) : Z := header_field p 0.
Definition blob_version (p : list byte) : Z := header_field p 4.
Definition blob_count (p : list byte) : Z := header_field p 8.
Definition blob_type (p : list byte) : Z := header_field p 12.

(** The [as_bytes] that holds exactly the bytes [p]. *)
Definition blob (p : list byte) : as_bytes :=
  as_bytes_init_wrap p (Z.of_nat (length p)) true.

(** An allocator that returns what was asked for. *)
Definition malloc_sound (malloc : Z -> option (list byte)) : Prop :=
  forall n buffer,
    0 <= n -> malloc n = Some buffer -> Z.of_nat (length buffer) = n.

(** An allocator that never fails and hands out zeroed memory. *)
Definition malloc_zeroed (n : Z) : option (list byte) :=
  Some (repeat x00 (Z.to_nat n)).

(** A vector as the library builds it: [size] is a [uint32_t] and the
    storage holds [size] items of [item_size] bytes. *)
Definition vector_wf (v : as_vector) : Prop :=
  0 <= vec_size v < 2 ^ 32 /\
  match vec_list v with
  | Some l => Z.of_nat (length l) = vec_size v * vec_item_size v
  | None => True
  end.

(** Modelled from the spec: the error taxonomy of its section 7.
    [as_ml_vector.c] reports an error as an [as_status]; it returns
    [AEROSPIKE_ERR_PARAM] where an argument is rejected and
    [AEROSPIKE_ERR_CLIENT] where [malloc] fails, and no other error status. *)
Inductive error_kind : Type :=
| InvalidArgument
| InvalidFormat
| UnsupportedVersion
| AllocationError.

Definition error_kind_of (status : as_status) : option error_kind :=
  match status with
  | AEROSPIKE_OK => None
  | AEROSPIKE_ERR_PARAM => Some InvalidArgument
  | AEROSPIKE_ERR_CLIENT => Some AllocationError
  end.

(** The vector is absent, has no storage or holds no item: the first guard
    of the encoder. *)
Definition vector_empty (vector : option as_vector) : Prop :=
  match vector with
  | None => True
  | Some v => vec_list v = None \/ vec_size v = 0
  end.

(** The header of a blob. *)
Definition header (count : Z) (element_type : as_ml_vector_element_type) : list byte :=
  encode_be32 AS_ML_VECTOR_MAGIC_NUMBER ++ encode_be32 AS_ML_VECTOR_VERSION
  ++ encode_be32 count ++ encode_be32 element_type.

(** The blobs the statements below are evaluated on. *)

(** Sixteen zero bytes: no magic number. *)
Definition blob_without_magic : list byte := repeat x00 16.

(** The magic number, then version 2. *)
Definition blob_of_version_2 : list byte :=
  encode_be32 AS_ML_VECTOR_MAGIC_NUMBER ++ encode_be32 2
  ++ encode_be32 1 ++ encode_be32 AS_ML_VECTOR_FLOAT32 ++ [x00; x00; x80; x3f].

(** One [float32], [1.0f], as a little-endian host encodes it. *)
Definition blob_of_one_float : list byte :=
  header 1 AS_ML_VECTOR_FLOAT32 ++ [x00; x00; x80; x3f].

(** A header that announces no element. *)
Definition blob_of_no_element : list byte := header 0 AS_ML_VECTOR_FLOAT32.

(** A header that announces [2^30] elements of 4 bytes, and no payload. *)
Definition blob_of_wrapped_size : list byte := header (2 ^ 30) AS_ML_VECTOR_FLOAT32.

(** [blob_of_one_float] without its last three bytes. *)
Definition truncated_blob : list byte := firstn 17 blob_of_one_float.

(** Outputs of a call, before it: an empty vector and the tag 0. *)
Definition fresh_vector : as_vector := as_vector_init 0 0.
Definition fresh_type : as_ml_vector_element_type := 0.

(** Two [float32] items, and the vector that holds them. *)
Definition two_floats : list byte := [x00; x00; x80; x3f; x00; x00; x00; x40].

Definition vector_of_two_floats : as_vector :=
  {| vec_list := Some two_floats; vec_size := 2; vec_item_size := 4 |}.

Definition fresh_bytes : as_bytes :=
  {| bytes_value := None; bytes_size := 0; bytes_capacity := 0; bytes_free := false |}.

(** A vector of [2^30] [float32] items: 4 GiB of storage, zeroed. *)
Definition huge_storage : list byte := repeat x00 (Z.to_nat 4294967296).

Definition huge_vector : as_vector :=
  {| vec_list := Some huge_storage; vec_size := 1073741824; vec_item_size := 4 |}.

(** The value of a string of decimal digits, continuing [acc]. *)
Fixpoint digits_value (s : string) (acc : N) : N :=
  match s with
  | EmptyString => acc
  | String c rest => digits_value rest (acc * 10 + (N_of_ascii c - 48))%N
  end.

Fixpoint all_chars (f : ascii -> bool) (s : string) : bool :=
  match s with
  | EmptyString => true
  | String c rest => f c && all_chars f rest
  end.

(** Plain decimal, no padding: digits only, of value [n], and no leading
    zero but for ["0"] itself. *)
Definition plain_decimal (n : N) (s : string) : Prop :=
  all_chars isdigit s = true
  /\ digits_value s 0 = n
  /\ (n = 0%N -> s = "0"%string)
  /\ (n <> 0%N -> exists c rest, s = String c rest /\ c <> "0"%char).

(** Numbers joined by dots, each in plain decimal. *)
Definition dotted (ns : list N) : string := String.concat "." (map print_hu ns).

(** Following the spec's words: "the signed difference of the first
    differing component, 0 if all are equal". *)
Fixpoint first_difference (xs ys : list Z) : Z :=
  match xs, ys with
  | x :: xs', y :: ys' => if x =? y then first_difference xs' ys' else x - y
  | _, _ => 0
  end.

Definition components (ver : as_version) : list Z :=
  [Z.of_N (major ver); Z.of_N (minor ver); Z.of_N (patch ver); Z.of_N (build ver)].

(** What a version object holds before it is parsed into. *)
Definition stale_version : as_version :=
  {| major := 1; minor := 2; patch := 3; build := 4 |}.

(** The characters the copy loop keeps, and those the first loop skips. *)
Definition numeric (c : ascii) : bool := isdigit c || is_dot c.
Definition skipped (c : ascii) : bool := negb (is_nul c) && isspace c.

(** No digit at the head of the string. *)
Definition no_digit_ahead (s : string) : Prop :=
  match s with
  | EmptyString => True
  | String c _ => isdigit c = false
  end.

(** The characters of a kind at the head of a text, and the text behind
    them. *)
Fixpoint leading (f : ascii -> bool) (s : string) : string :=
  match s with
  | EmptyString => EmptyString
  | String c rest => if f c then String c (leading f rest) else EmptyString
  end.

Fixpoint behind (f : ascii -> bool) (s : string) : string :=
  match s with
  | EmptyString => EmptyString
  | String c rest => if f c then behind f rest else s
  end.

(** No character of a kind at the head of the text. *)
Definition stops (f : ascii -> bool) (s : string) : Prop :=
  match s with
  | EmptyString => True
  | String c _ => f c = false
  end.

(** Following the spec's words: "up to four dot-separated unsigned
    integers", here up to [k], read from the head of the scratch buffer: a
    component is a run of digits, and the next one follows a dot. *)
Fixpoint dot_separated (k : nat) (s : string) : list N :=
  match k with
  | O => []
  | S k' =>
      match leading isdigit s with
      | EmptyString => []
      | String _ _ =>
          digits_value (leading isdigit s) 0
          :: match behind isdigit s with
             | String c rest => if is_dot c then dot_separated k' rest else []
             | EmptyString => []
             end
      end
  end.

(** The components behind a dot, if the text starts with one. *)
Definition dot_then (k : nat) (s : string) : list N :=
  match s with
  | String c rest => if is_dot c then dot_separated k rest else []
  | EmptyString => []
  end.

(** The stores of [sscanf], one per component read. *)
Definition stored (setters : list (N -> as_version -> as_version)) (ns : list N)
    (ver : as_version) : as_version :=
  fold_left (fun v p => fst p (snd p) v) (combine setters ns) ver.

(** Two blanks, ["7.1.0"] and a suffix. *)
Definition text_with_suffix : string := ("  " ++ "7.1.0" ++ "-rc1")%string.

(** The four constructors, each with the [sizeof] of its element type. *)
Definition constructors
    : list (Z * (option as_vector -> option (list byte) -> Z
                 -> run (as_status * option as_vector))) :=
  [ (4, as_ml_vector_init_float32); (8, as_ml_vector_init_float64);
    (4, as_ml_vector_init_int32); (8, as_ml_vector_init_int64) ].

(** The vector that holds the first [count] items of [width] bytes of an
    array. *)
Definition vector_of_array (width count : Z) (arr : list byte) : as_vector :=
  {| vec_list := Some (firstn (Z.to_nat (count * width)) arr);
     vec_size := count; vec_item_size := width |}.

(** Four [float32] items, as [main] and [insert_test_records] build them. *)
Definition four_floats : list byte :=
  [x00; x00; x80; x3f; x00; x00; x00; x40; x00; x00; x40; x40; x00; x00; x80; x40].

(** A well-formed header with the type tag 7, and one byte behind it. *)
Definition blob_of_unknown_type : list byte := header 1 7 ++ [x00].

(** A version of 16-bit components, as the fields of [as_version] hold. *)
Definition version_wf (ver : as_version) : Prop :=
  (major ver <= 65535)%N /\ (minor ver <= 65535)%N
  /\ (patch ver <= 65535)%N /\ (build ver <= 65535)%N.

(** Sixty zeros, then ["7.1"]: 63 numeric characters. *)
Definition sixty_three_characters : string :=
  ("000000000000000000000000000000" ++ "000000000000000000000000000000" ++ "7.1")%string.

(** Two lowercase hexadecimal digits per byte. *)
Definition hex_text (bs : list byte) : list byte :=
  flat_map (fun b => [hex_digit (Z_of_byte b / 16); hex_digit (Z_of_byte b mod 16)]) bs.

Definition is_lower_hex (c : byte) : bool :=
  let z := Z_of_byte c in
  ((48 <=? z) && (z <=? 57)) || ((97 <=? z) && (z <=? 102)).

Definition hex_value (c : byte) : Z :=
  let z := Z_of_byte c in if z <? 58 then z - 48 else z - 87.

(** The bytes that a text of hexadecimal digits stands for. *)
Fixpoint unhex_text (cs : list byte) : list byte :=
  match cs with
  | h :: l :: rest => byte_of_Z (hex_value h * 16 + hex_value l) :: unhex_text rest
  | _ => []
  end.

(** A digest of 20 bytes, and a local array of 41 bytes. *)
Definition sample_digest : list byte :=
  [x00; x01; x0a; x0f; x10; x7f; x80; xa5; xff; xfe;
   x12; x34; x56; x78; x9a; xbc; xde; xf0; x0d; xd0].

Definition stale_digest_str : list byte := repeat x2a 41.

(** * Properties *)

(** ** Bytes and words *)

Lemma Z_of_byte_range (b : byte) : 0 <= Z_of_byte b < 256.
Proof.
  unfold Z_of_byte. pose proof (Byte.to_N_bounded b). lia.
Qed.

Lemma Z_of_byte_of_Z (z : Z) : Z_of_byte (byte_of_Z z) = z mod 256.
Proof.
  unfold Z_of_byte, byte_of_Z.
  assert (Hr : 0 <= z mod 256 < 256) by (apply Z.mod_pos_bound; lia).
  destruct (Byte.of_N (Z.to_N (z mod 256))) as [b|] eqn:E.
  - apply Byte.to_of_N in E. rewrite E. lia.
  - apply Byte.of_N_None_iff in E. lia.
Qed.

Lemma byte_of_Z_of_byte (b : byte) : byte_of_Z (Z_of_byte b) = b.
Proof.
  unfold byte_of_Z. pose proof (Z_of_byte_range b) as Hr.
  rewrite Z.mod_small by lia. unfold Z_of_byte.
  rewrite N2Z.id, Byte.of_to_N. reflexivity.
Qed.

Lemma byte_of_Z_mod (z : Z) : byte_of_Z (z mod 256) = byte_of_Z z.
Proof.
  unfold byte_of_Z. rewrite Z.mod_mod by lia. reflexivity.
Qed.

Lemma decode_encode_be32 (x : Z) : decode_be32 (encode_be32 x) = wrap32 x.
Proof.
  unfold decode_be32, encode_be32, wrap32.
  rewrite !Z_of_byte_of_Z. change (2 ^ 32) with 4294967296.
  Z.to_euclidean_division_equations. lia.
Qed.

Lemma byte_of_Z_eq (z : Z) (b : byte) :
  z mod 256 = Z_of_byte b -> byte_of_Z z = b.
Proof.
  intros H. rewrite <- byte_of_Z_mod, H. apply byte_of_Z_of_byte.
Qed.

Lemma encode_decode_be32 (b0 b1 b2 b3 : byte) :
  encode_be32 (decode_be32 [b0; b1; b2; b3]) = [b0; b1; b2; b3].
Proof.
  unfold decode_be32, encode_be32.
  pose proof (Z_of_byte_range b0). pose proof (Z_of_byte_range b1).
  pose proof (Z_of_byte_range b2). pose proof (Z_of_byte_range b3).
  repeat f_equal; apply byte_of_Z_eq;
    Z.to_euclidean_division_equations; lia.
Qed.

Lemma encode_be32_length (x : Z) : length (encode_be32 x) = 4%nat.
Proof. reflexivity. Qed.

Lemma decode_be32_range (bs : list byte) : 0 <= decode_be32 bs < 2 ^ 32.
Proof.
  change (2 ^ 32) with 4294967296.
  destruct bs as [|b0 [|b1 [|b2 [|b3 [|b4 bs]]]]]; simpl; try lia.
  pose proof (Z_of_byte_range b0). pose proof (Z_of_byte_range b1).
  pose proof (Z_of_byte_range b2). pose proof (Z_of_byte_range b3). lia.
Qed.

Lemma encode_decode_be32_list (bs : list byte) :
  length bs = 4%nat -> encode_be32 (decode_be32 bs) = bs.
Proof.
  destruct bs as [|b0 [|b1 [|b2 [|b3 [|b4 bs]]]]]; try discriminate.
  intros _. apply encode_decode_be32.
Qed.

Lemma encode_decode_le32_list (bs : list byte) :
  length bs = 4%nat -> encode_le32 (decode_le32 bs) = bs.
Proof.
  intros H. unfold encode_le32, decode_le32.
  rewrite encode_decode_be32_list by (rewrite length_rev; exact H).
  apply rev_involutive.
Qed.

Section PlatformFacts.

Variable host_big_endian : bool.

Lemma native_encode32_length (x : Z) :
  length (native_encode32 host_big_endian x) = 4%nat.
Proof. unfold native_encode32. destruct host_big_endian; reflexivity. Qed.

Lemma native_encode_decode32 (bs : list byte) :
  length bs = 4%nat ->
  native_encode32 host_big_endian (native_decode32 host_big_endian bs) = bs.
Proof.
  intros H. unfold native_encode32, native_decode32.
  destruct host_big_endian.
  - apply encode_decode_be32_list, H.
  - apply encode_decode_le32_list, H.
Qed.

(** A word stored after [cf_swap_to_be32] lies in memory most significant
    byte first, whatever the byte order of the host. *)
Lemma store_swapped_is_big_endian (x : Z) :
  native_encode32 host_big_endian (cf_swap_to_be32 host_big_endian x)
  = encode_be32 x.
Proof.
  unfold cf_swap_to_be32. apply native_encode_decode32, encode_be32_length.
Qed.

(** A word loaded and passed through [cf_swap_from_be32] is the big-endian
    value of the four bytes, whatever the byte order of the host. *)
Lemma load_swapped_is_big_endian (bs : list byte) :
  length bs = 4%nat ->
  cf_swap_from_be32 host_big_endian (native_decode32 host_big_endian bs)
  = decode_be32 bs.
Proof.
  intros H. unfold cf_swap_from_be32.
  rewrite native_encode_decode32 by exact H. reflexivity.
Qed.

End PlatformFacts.

(** ** Memory *)

(** Boolean tests of the code, turned into the propositions [lia] reads. *)
Ltac zbool :=
  repeat match goal with
  | H : (_ <=? _) = true |- _ => apply Z.leb_le in H
  | H : (_ <=? _) = false |- _ => apply Z.leb_gt in H
  | H : (_ <? _) = true |- _ => apply Z.ltb_lt in H
  | H : (_ <? _) = false |- _ => apply Z.ltb_ge in H
  | H : (_ =? _) = true |- _ => apply Z.eqb_eq in H
  | H : (_ =? _) = false |- _ => apply Z.eqb_neq in H
  end.

Lemma slice_in_bounds (buf : list byte) (off len : Z) :
  0 <= off -> 0 <= len -> off + len <= Z.of_nat (length buf) ->
  slice buf off len = Ret (firstn (Z.to_nat len) (skipn (Z.to_nat off) buf)).
Proof.
  intros H1 H2 H3. unfold slice.
  destruct (0 <=? off) eqn:E1; [|lia].
  destruct (0 <=? len) eqn:E2; [|lia].
  destruct (off + len <=? Z.of_nat (length buf)) eqn:E3; [|zbool; lia].
  reflexivity.
Qed.

Lemma slice_out_of_bounds (buf : list byte) (off len : Z) :
  Z.of_nat (length buf) < off + len -> slice buf off len = Undefined.
Proof.
  intros H. unfold slice.
  destruct (off + len <=? Z.of_nat (length buf)) eqn:E; [zbool; lia|].
  rewrite andb_false_r. reflexivity.
Qed.

Lemma slice_length (buf : list byte) (off len : Z) (bs : list byte) :
  slice buf off len = Ret bs -> Z.of_nat (length bs) = len.
Proof.
  unfold slice.
  destruct (0 <=? off) eqn:E1; [|discriminate].
  destruct (0 <=? len) eqn:E2; [|discriminate].
  destruct (off + len <=? Z.of_nat (length buf)) eqn:E3; [|discriminate].
  simpl. intros H. injection H as <-.
  zbool. rewrite length_firstn, length_skipn. lia.
Qed.

Lemma store_chunk (pre old post bs : list byte) :
  length old = length bs ->
  store (pre ++ old ++ post) (Z.of_nat (length pre)) bs = Ret (pre ++ bs ++ post).
Proof.
  intros Hlen. unfold store.
  destruct (0 <=? Z.of_nat (length pre)) eqn:E1; [|zbool; lia].
  destruct (Z.of_nat (length pre) + Z.of_nat (length bs)
            <=? Z.of_nat (length (pre ++ old ++ post))) eqn:E2.
  - simpl. rewrite Nat2Z.id. f_equal.
    rewrite firstn_app, firstn_all, Nat.sub_diag. simpl. rewrite app_nil_r.
    f_equal. f_equal.
    rewrite skipn_app, skipn_all2 by lia. simpl.
    replace (length pre + length bs - length pre)%nat with (length old) by lia.
    rewrite skipn_app, skipn_all, Nat.sub_diag. reflexivity.
  - zbool. rewrite !length_app in E2. lia.
Qed.

Lemma store_out_of_bounds (buf : list byte) (off : Z) (bs : list byte) :
  Z.of_nat (length buf) < off + Z.of_nat (length bs) -> store buf off bs = Undefined.
Proof.
  intros H. unfold store.
  destruct (off + Z.of_nat (length bs) <=? Z.of_nat (length buf)) eqn:E; [zbool; lia|].
  rewrite andb_false_r. reflexivity.
Qed.

(** A list of known length, cut into a chunk of [n] and the rest. *)
Lemma split_chunk (n : nat) (l : list byte) :
  (n <= length l)%nat ->
  exists c r, l = c ++ r /\ length c = n /\ length r = (length l - n)%nat.
Proof.
  intros H. exists (firstn n l), (skipn n l).
  rewrite firstn_skipn, length_firstn, length_skipn. repeat split; lia.
Qed.

(** ** The decoder, check by check *)

Section DecoderFacts.

Variable host_big_endian : bool.

Lemma load32_header (p : list byte) (off : Z) :
  0 <= off -> off + 4 <= Z.of_nat (length p) ->
  exists w, load32 host_big_endian p off = Ret w
            /\ cf_swap_from_be32 host_big_endian w = header_field p off.
Proof.
  intros H1 H2. unfold load32.
  rewrite slice_in_bounds by lia. cbn [bind].
  eexists. split; [reflexivity|].
  apply load_swapped_is_big_endian.
  rewrite length_firstn, length_skipn. lia.
Qed.

(** What the decoder does on a buffer that holds a header: the four checks in
    their order, then the copy. *)
Lemma deserialize_checks (b : as_bytes) (p : list byte)
    (v0 : as_vector) (t0 : as_ml_vector_element_type) :
  bytes_value b = Some p ->
  16 <= bytes_size b -> 16 <= Z.of_nat (length p) ->
  as_ml_vector_deserialize host_big_endian (Some b) (Some v0) (Some t0) =
    let fail := Ret (AEROSPIKE_ERR_PARAM, Some v0, Some t0) in
    if negb (blob_magic p =? AS_ML_VECTOR_MAGIC_NUMBER) then fail
    else if negb (blob_version p =? AS_ML_VECTOR_VERSION) then fail
    else
      let element_size := as_ml_vector_element_size (blob_type p) in
      if element_size =? 0 then fail
      else if negb (bytes_size b =? wrap32 (16 + wrap32 (blob_count p * element_size)))
      then fail
      else
        v <- append_loop
               (fun i => slice p (16 + wrap32 (i * element_size)) element_size)
               (Z.to_nat (blob_count p)) 0
               (as_vector_init element_size (blob_count p)) ;;
        Ret (AEROSPIKE_OK, Some v, Some (blob_type p)).
Proof.
  intros Hp Hsize Hlen. unfold as_ml_vector_deserialize. rewrite Hp.
  destruct (bytes_size b <? 16) eqn:E; [zbool; lia|].
  destruct (load32_header p 0) as (w0 & L0 & S0); [lia|lia|].
  destruct (load32_header p 4) as (w1 & L1 & S1); [lia|lia|].
  destruct (load32_header p 8) as (w2 & L2 & S2); [lia|lia|].
  destruct (load32_header p 12) as (w3 & L3 & S3); [lia|lia|].
  rewrite L0. cbn [bind]. rewrite S0. fold (blob_magic p).
  destruct (negb (blob_magic p =? AS_ML_VECTOR_MAGIC_NUMBER)); [reflexivity|].
  rewrite L1. cbn [bind]. rewrite S1. fold (blob_version p).
  destruct (negb (blob_version p =? AS_ML_VECTOR_VERSION)); [reflexivity|].
  rewrite L2. cbn [bind]. rewrite L3. cbn [bind]. rewrite S2, S3.
  reflexivity.
Qed.

End DecoderFacts.

(** ** The copy loop *)

Lemma firstn_add (A : Type) (a b : nat) (l : list A) :
  firstn (a + b) l = firstn a l ++ firstn b (skipn a l).
Proof.
  revert l. induction a as [|a IH]; intros l; [reflexivity|].
  destruct l as [|x l]; simpl.
  - rewrite firstn_nil. reflexivity.
  - rewrite IH. reflexivity.
Qed.

Lemma wrap32_small (x : Z) : 0 <= x < 2 ^ 32 -> wrap32 x = x.
Proof. intros H. unfold wrap32. apply Z.mod_small, H. Qed.

Lemma wrap32_range (x : Z) : 0 <= wrap32 x < 2 ^ 32.
Proof. unfold wrap32. apply Z.mod_pos_bound. reflexivity. Qed.

(** [n] rounds that read consecutive items of [es] bytes from offset
    [base + i * es] of [p] append exactly those bytes. *)
Lemma append_loop_copies (read : Z -> run (list byte)) (p : list byte) (base es : Z) :
  0 < es -> 0 <= base ->
  forall (n : nat) (i : Z) (v : as_vector) (l : list byte),
    0 <= i ->
    (forall j, i <= j < i + Z.of_nat n -> read j = slice p (base + j * es) es) ->
    base + (i + Z.of_nat n) * es <= Z.of_nat (length p) ->
    vec_list v = Some l ->
    0 <= vec_size v -> vec_size v + Z.of_nat n < 2 ^ 32 ->
    append_loop read n i v =
      Ret {| vec_list := Some (l ++ firstn (Z.to_nat (Z.of_nat n * es))
                                      (skipn (Z.to_nat (base + i * es)) p));
             vec_size := vec_size v + Z.of_nat n;
             vec_item_size := vec_item_size v |}.
Proof.
  intros Hes Hbase. induction n as [|n IH]; intros i v l Hi Hread Hfit Hl Hs Hs'.
  - simpl. rewrite app_nil_r, Z.add_0_r. destruct v; simpl in *. subst. reflexivity.
  - cbn [append_loop]. rewrite Hread by lia.
    rewrite slice_in_bounds by nia. cbn [bind].
    rewrite (IH (i + 1) _ (l ++ firstn (Z.to_nat es) (skipn (Z.to_nat (base + i * es)) p))).
    + f_equal. unfold as_vector_append. cbn [vec_size vec_item_size].
      rewrite wrap32_small by lia. f_equal.
      * f_equal. rewrite <- app_assoc. f_equal.
        replace (Z.to_nat (Z.of_nat (S n) * es))
          with (Z.to_nat es + Z.to_nat (Z.of_nat n * es))%nat by nia.
        rewrite firstn_add. f_equal. f_equal.
        rewrite skipn_skipn. f_equal. nia.
      * lia.
    + lia.
    + intros j Hj. apply Hread. lia.
    + nia.
    + unfold as_vector_append. rewrite Hl. reflexivity.
    + unfold as_vector_append. cbn [vec_size]. pose proof (wrap32_range (vec_size v + 1)). lia.
    + unfold as_vector_append. cbn [vec_size]. rewrite wrap32_small by lia. lia.
Qed.

Lemma append_loop_first_read_undefined (read : Z -> run (list byte)) (n : nat)
    (i : Z) (v : as_vector) :
  (0 < n)%nat -> read i = Undefined -> append_loop read n i v = Undefined.
Proof.
  intros Hn Hr. destruct n as [|n]; [lia|]. cbn [append_loop]. rewrite Hr. reflexivity.
Qed.

(** ** The decoder: errors *)

Section DecoderErrors.

Variable host_big_endian : bool.

(** Every path of the decoder that does not return [AEROSPIKE_OK] returns
    [AEROSPIKE_ERR_PARAM] and leaves both outputs as they were. *)
Lemma deserialize_failure (bytes : option as_bytes) (vector : option as_vector)
    (element_type : option as_ml_vector_element_type)
    (status : as_status) (vector' : option as_vector)
    (element_type' : option as_ml_vector_element_type) :
  as_ml_vector_deserialize host_big_endian bytes vector element_type
    = Ret (status, vector', element_type') ->
  status <> AEROSPIKE_OK ->
  status = AEROSPIKE_ERR_PARAM /\ vector' = vector /\ element_type' = element_type.
Proof.
  unfold as_ml_vector_deserialize. intros H Hs.
  assert (Hfail : forall r : run (as_status * option as_vector
                                 * option as_ml_vector_element_type),
             r = Ret (AEROSPIKE_ERR_PARAM, vector, element_type) ->
             r = Ret (status, vector', element_type') ->
             status = AEROSPIKE_ERR_PARAM /\ vector' = vector
             /\ element_type' = element_type).
  { intros r -> E. injection E as <- <- <-. auto. }
  destruct bytes as [b|]; [|eapply Hfail; eauto].
  destruct vector as [v0|]; [|eapply Hfail; eauto].
  destruct element_type as [t0|]; [|eapply Hfail; eauto].
  destruct (bytes_value b) as [p|]; [|eapply Hfail; eauto].
  destruct (bytes_size b <? 16); [eapply Hfail; eauto|].
  destruct (load32 host_big_endian p 0) as [w0|]; [cbn [bind] in H|discriminate].
  destruct (negb _); [eapply Hfail; eauto|].
  destruct (load32 host_big_endian p 4) as [w1|]; [cbn [bind] in H|discriminate].
  destruct (negb _); [eapply Hfail; eauto|].
  destruct (load32 host_big_endian p 8) as [w2|]; [cbn [bind] in H|discriminate].
  destruct (load32 host_big_endian p 12) as [w3|]; [cbn [bind] in H|discriminate].
  destruct (_ =? 0); [eapply Hfail; eauto|].
  destruct (negb _); [eapply Hfail; eauto|].
  destruct (append_loop _ _ _ _) as [v|]; [cbn [bind] in H|discriminate].
  injection H as <- _ _. congruence.
Qed.

(** A blob shorter than its header is rejected at the first guard. *)
Lemma deserialize_short (b : as_bytes) (vector : option as_vector)
    (element_type : option as_ml_vector_element_type) :
  bytes_size b < 16 ->
  as_ml_vector_deserialize host_big_endian (Some b) vector element_type
    = Ret (AEROSPIKE_ERR_PARAM, vector, element_type).
Proof.
  intros H. unfold as_ml_vector_deserialize.
  destruct vector; [|reflexivity]. destruct element_type; [|reflexivity].
  destruct (bytes_value b); [|reflexivity].
  destruct (bytes_size b <? 16) eqn:E; [reflexivity|zbool; lia].
Qed.

(** The decoder with an output pointer missing. *)
Lemma deserialize_null_output (bytes : option as_bytes) (vector : option as_vector)
    (element_type : option as_ml_vector_element_type) :
  vector = None \/ element_type = None ->
  as_ml_vector_deserialize host_big_endian bytes vector element_type
    = Ret (AEROSPIKE_ERR_PARAM, vector, element_type).
Proof.
  intros [-> | ->]; unfold as_ml_vector_deserialize;
    destruct bytes; try reflexivity; destruct vector; reflexivity.
Qed.

End DecoderErrors.

(** ** The decoder: what an accepted blob satisfies *)

Section DecoderAccepts.

Variable host_big_endian : bool.

Lemma deserialize_accepts_inv (p : list byte) (v0 : as_vector)
    (t0 : as_ml_vector_element_type) (vector' : option as_vector)
    (element_type' : option as_ml_vector_element_type) :
  as_ml_vector_deserialize host_big_endian (Some (blob p)) (Some v0) (Some t0)
    = Ret (AEROSPIKE_OK, vector', element_type') ->
  let element_size := as_ml_vector_element_size (blob_type p) in
  16 <= Z.of_nat (length p)
  /\ blob_magic p = AS_ML_VECTOR_MAGIC_NUMBER
  /\ blob_version p = AS_ML_VECTOR_VERSION
  /\ element_size <> 0
  /\ Z.of_nat (length p) = wrap32 (16 + wrap32 (blob_count p * element_size))
  /\ element_type' = Some (blob_type p)
  /\ exists v,
       vector' = Some v /\
       append_loop (fun i => slice p (16 + wrap32 (i * element_size)) element_size)
         (Z.to_nat (blob_count p)) 0 (as_vector_init element_size (blob_count p))
       = Ret v.
Proof.
  intros H es.
  destruct (Z_lt_le_dec (Z.of_nat (length p)) 16) as [Hshort|Hlong].
  { rewrite deserialize_short in H by exact Hshort. discriminate. }
  rewrite (deserialize_checks host_big_endian (blob p) p) in H
    by (try reflexivity; simpl; lia).
  cbv zeta in H. fold es in H. change (bytes_size (blob p)) with (Z.of_nat (length p)) in H.
  destruct (blob_magic p =? AS_ML_VECTOR_MAGIC_NUMBER) eqn:E1; [|discriminate].
  destruct (blob_version p =? AS_ML_VECTOR_VERSION) eqn:E2; [|discriminate].
  destruct (es =? 0) eqn:E3; [discriminate|].
  destruct (Z.of_nat (length p) =? wrap32 (16 + wrap32 (blob_count p * es))) eqn:E4;
    [|discriminate].
  cbn [negb] in H.
  destruct (append_loop _ _ _ _) as [v|] eqn:E5; [|discriminate].
  cbn [bind] in H. injection H as <- <-. zbool.
  repeat split; try assumption. exists v. split; reflexivity.
Qed.

Lemma header_field_firstn (p : list byte) (m : nat) (off : Z) :
  0 <= off -> off + 4 <= Z.of_nat m ->
  header_field (firstn m p) off = header_field p off.
Proof.
  intros H1 H2. unfold header_field. f_equal.
  rewrite skipn_firstn_comm, firstn_firstn. f_equal. lia.
Qed.

Lemma element_size_cases (t : as_ml_vector_element_type) :
  (as_ml_vector_element_size t = 4 /\ (t = AS_ML_VECTOR_FLOAT32 \/ t = AS_ML_VECTOR_INT32))
  \/ (as_ml_vector_element_size t = 8 /\ (t = AS_ML_VECTOR_FLOAT64 \/ t = AS_ML_VECTOR_INT64))
  \/ (as_ml_vector_element_size t = 0 /\ t <> AS_ML_VECTOR_FLOAT32 /\ t <> AS_ML_VECTOR_INT32
       /\ t <> AS_ML_VECTOR_FLOAT64 /\ t <> AS_ML_VECTOR_INT64).
Proof.
  unfold as_ml_vector_element_size, AS_ML_VECTOR_FLOAT32, AS_ML_VECTOR_INT32,
    AS_ML_VECTOR_FLOAT64, AS_ML_VECTOR_INT64.
  destruct (t =? 1) eqn:E1; destruct (t =? 3) eqn:E3; destruct (t =? 2) eqn:E2;
    destruct (t =? 4) eqn:E4; zbool; cbn [orb]; lia.
Qed.

Lemma header_field_range (p : list byte) (off : Z) : 0 <= header_field p off < 2 ^ 32.
Proof. apply decode_be32_range. Qed.

(** C2 (amended).  Where [16 + count * element_size], taken exactly, is below
    [2^32], a blob whose length is not that number is rejected, with
    [AEROSPIKE_ERR_PARAM] and both outputs untouched, and an accepted blob
    has exactly that length.  A blob the decoder accepts is rejected, in the
    same way, once it is cut short by any number [k >= 1] of trailing
    bytes. *)
Theorem deserialize_checks_length (p : list byte) (v0 : as_vector)
    (t0 : as_ml_vector_element_type) :
  let expected := 16 + blob_count p * as_ml_vector_element_size (blob_type p) in
  (expected < 2 ^ 32 -> Z.of_nat (length p) <> expected ->
   as_ml_vector_deserialize host_big_endian (Some (blob p)) (Some v0) (Some t0)
     = Ret (AEROSPIKE_ERR_PARAM, Some v0, Some t0))
  /\ (expected < 2 ^ 32 ->
      forall v t,
        as_ml_vector_deserialize host_big_endian (Some (blob p)) (Some v0) (Some t0)
          = Ret (AEROSPIKE_OK, v, t) ->
        Z.of_nat (length p) = expected)
  /\ (forall v t k,
        as_ml_vector_deserialize host_big_endian (Some (blob p)) (Some v0) (Some t0)
          = Ret (AEROSPIKE_OK, v, t) ->
        (0 < k <= length p)%nat ->
        as_ml_vector_deserialize host_big_endian
          (Some (blob (firstn (length p - k) p))) (Some v0) (Some t0)
          = Ret (AEROSPIKE_ERR_PARAM, Some v0, Some t0)).
Proof.
  intros expected.
  assert (Hacc : expected < 2 ^ 32 ->
      forall v t,
        as_ml_vector_deserialize host_big_endian (Some (blob p)) (Some v0) (Some t0)
          = Ret (AEROSPIKE_OK, v, t) ->
        Z.of_nat (length p) = expected).
  { intros Hexp v t H. apply deserialize_accepts_inv in H.
    destruct H as (_ & _ & _ & Hes & Hlen & _).
    pose proof (header_field_range p 8) as Hc. fold (blob_count p) in Hc.
    assert (0 < as_ml_vector_element_size (blob_type p))
      by (destruct (element_size_cases (blob_type p)) as [[? _]|[[? _]|[? _]]]; lia).
    rewrite Hlen. unfold expected in *.
    rewrite (wrap32_small (_ * _)) by nia. apply wrap32_small. nia. }
  split; [|split; [exact Hacc|]].
  - intros Hexp Hne.
    destruct (as_ml_vector_deserialize host_big_endian (Some (blob p)) (Some v0) (Some t0))
      as [[[status v] t]|] eqn:E.
    + destruct status.
      * exfalso. apply Hne. eapply Hacc; eauto.
      * apply deserialize_failure in E; [|discriminate].
        destruct E as (_ & -> & ->). reflexivity.
      * apply deserialize_failure in E; [|discriminate].
        destruct E as (E & _). discriminate.
    + exfalso.
      destruct (Z_lt_le_dec (Z.of_nat (length p)) 16) as [Hshort|Hlong].
      { rewrite deserialize_short in E by exact Hshort. discriminate. }
      rewrite (deserialize_checks host_big_endian (blob p) p) in E
        by (try reflexivity; simpl; lia).
      cbv zeta in E. change (bytes_size (blob p)) with (Z.of_nat (length p)) in E.
      destruct (negb (blob_magic p =? _)); [discriminate|].
      destruct (negb (blob_version p =? _)); [discriminate|].
      destruct (_ =? 0) eqn:E3; [discriminate|].
      destruct (Z.of_nat (length p) =? _) eqn:E4; [|discriminate].
      zbool. apply Hne. rewrite E4. unfold expected in *.
      pose proof (header_field_range p 8) as Hc. fold (blob_count p) in Hc.
      assert (0 < as_ml_vector_element_size (blob_type p))
        by (destruct (element_size_cases (blob_type p)) as [[? _]|[[? _]|[? _]]]; lia).
      rewrite (wrap32_small (_ * _)) by nia. apply wrap32_small. nia.
  - intros v t k H Hk. apply deserialize_accepts_inv in H.
    destruct H as (Hlong & Hm & Hv & Hes & Hlen & _).
    set (p' := firstn (length p - k) p).
    assert (Hlen' : length p' = (length p - k)%nat)
      by (unfold p'; rewrite length_firstn; lia).
    destruct (Z_lt_le_dec (Z.of_nat (length p')) 16) as [Hshort|Hlong'].
    { apply deserialize_short. exact Hshort. }
    rewrite (deserialize_checks host_big_endian (blob p') p')
      by (try reflexivity; simpl; lia).
    cbv zeta. change (bytes_size (blob p')) with (Z.of_nat (length p')).
    unfold blob_magic, blob_version, blob_type, blob_count, p'.
    rewrite !header_field_firstn by lia.
    fold (blob_magic p) (blob_version p) (blob_type p) (blob_count p). fold p'.
    rewrite Hm, Hv, !Z.eqb_refl. cbn [negb].
    destruct (_ =? 0) eqn:E3; [reflexivity|].
    destruct (Z.of_nat (length p') =? _) eqn:E4; [|reflexivity].
    zbool. lia.
Qed.

End DecoderAccepts.

Lemma deserialize_checks_length_witness :
  as_ml_vector_deserialize false (Some (blob truncated_blob))
    (Some fresh_vector) (Some fresh_type)
    = Ret (AEROSPIKE_ERR_PARAM, Some fresh_vector, Some fresh_type)
  /\ Z.of_nat (length blob_of_one_float)
     = 16 + blob_count blob_of_one_float
            * as_ml_vector_element_size (blob_type blob_of_one_float)
  /\ as_ml_vector_deserialize false
       (Some (blob (firstn (length blob_of_one_float - 3) blob_of_one_float)))
       (Some fresh_vector) (Some fresh_type)
     = Ret (AEROSPIKE_ERR_PARAM, Some fresh_vector, Some fresh_type).
Proof.
  pose proof (deserialize_checks_length false truncated_blob fresh_vector fresh_type)
    as (Hreject & _ & _).
  pose proof (deserialize_checks_length false blob_of_one_float fresh_vector fresh_type)
    as (_ & Hlength & Htruncate).
  split; [|split].
  - apply Hreject; vm_compute; congruence.
  - apply (Hlength eq_refl
             (Some {| vec_list := Some [x00; x00; x80; x3f]; vec_size := 1;
                      vec_item_size := 4 |})
             (Some AS_ML_VECTOR_FLOAT32)).
    vm_compute. reflexivity.
  - apply (Htruncate
             (Some {| vec_list := Some [x00; x00; x80; x3f]; vec_size := 1;
                      vec_item_size := 4 |})
             (Some AS_ML_VECTOR_FLOAT32) 3%nat).
    + vm_compute. reflexivity.
    + vm_compute. split; lia.
Defined.

(** ** The decoder: magic number and version *)

(** C4 (amended).  On a blob of at least 16 bytes, a magic number other than
    the constant is rejected with [AEROSPIKE_ERR_PARAM], and so is, behind
    the right magic number, a version other than the constant: the two
    causes give one and the same result, outputs untouched. *)
Theorem deserialize_magic_and_version (host_big_endian : bool) (b : as_bytes)
    (p : list byte) (vector : option as_vector)
    (element_type : option as_ml_vector_element_type) :
  bytes_value b = Some p ->
  16 <= bytes_size b -> 16 <= Z.of_nat (length p) ->
  (blob_magic p <> AS_ML_VECTOR_MAGIC_NUMBER
   \/ (blob_magic p = AS_ML_VECTOR_MAGIC_NUMBER
       /\ blob_version p <> AS_ML_VECTOR_VERSION)) ->
  as_ml_vector_deserialize host_big_endian (Some b) vector element_type
    = Ret (AEROSPIKE_ERR_PARAM, vector, element_type).
Proof.
  intros Hp Hsize Hlen Hcause.
  destruct vector as [v0|]; [|apply deserialize_null_output; auto].
  destruct element_type as [t0|]; [|apply deserialize_null_output; auto].
  rewrite (deserialize_checks host_big_endian b p) by assumption. cbv zeta.
  destruct (blob_magic p =? AS_ML_VECTOR_MAGIC_NUMBER) eqn:E1; [|reflexivity].
  destruct (blob_version p =? AS_ML_VECTOR_VERSION) eqn:E2; [|reflexivity].
  zbool. exfalso. destruct Hcause as [H|[_ H]]; contradiction.
Qed.

Lemma deserialize_magic_and_version_witness :
  as_ml_vector_deserialize true (Some (blob blob_without_magic))
    (Some fresh_vector) (Some fresh_type)
    = Ret (AEROSPIKE_ERR_PARAM, Some fresh_vector, Some fresh_type)
  /\ as_ml_vector_deserialize true (Some (blob blob_of_version_2))
       (Some fresh_vector) (Some fresh_type)
     = Ret (AEROSPIKE_ERR_PARAM, Some fresh_vector, Some fresh_type).
Proof.
  split.
  - apply (deserialize_magic_and_version true (blob blob_without_magic)
             blob_without_magic).
    + reflexivity.
    + vm_compute. discriminate.
    + vm_compute. discriminate.
    + left. vm_compute. discriminate.
  - apply (deserialize_magic_and_version true (blob blob_of_version_2)
             blob_of_version_2).
    + reflexivity.
    + vm_compute. discriminate.
    + vm_compute. discriminate.
    + right. split; vm_compute; [reflexivity|discriminate].
Defined.

(** C4, as stated, fails: a blob with a wrong magic number and a blob with the
    right magic number and version 2 get the same result from the decoder,
    the status [AEROSPIKE_ERR_PARAM] of a rejected argument. *)
Lemma magic_and_version_errors_coincide :
  (16 <= length blob_without_magic)%nat
  /\ (16 <= length blob_of_version_2)%nat
  /\ blob_magic blob_without_magic <> AS_ML_VECTOR_MAGIC_NUMBER
  /\ blob_magic blob_of_version_2 = AS_ML_VECTOR_MAGIC_NUMBER
  /\ blob_version blob_of_version_2 <> AS_ML_VECTOR_VERSION
  /\ as_ml_vector_deserialize false (Some (blob blob_without_magic))
       (Some fresh_vector) (Some fresh_type)
     = as_ml_vector_deserialize false (Some (blob blob_of_version_2))
         (Some fresh_vector) (Some fresh_type)
  /\ as_ml_vector_deserialize false (Some (blob blob_of_version_2))
       (Some fresh_vector) (Some fresh_type)
     = Ret (AEROSPIKE_ERR_PARAM, Some fresh_vector, Some fresh_type)
  /\ error_kind_of AEROSPIKE_ERR_PARAM <> Some InvalidFormat
  /\ error_kind_of AEROSPIKE_ERR_PARAM <> Some UnsupportedVersion.
Proof.
  repeat split; try (vm_compute; congruence); vm_compute; lia.
Qed.

(** ** Vectors without elements *)

(** C3.  Each of the four constructors rejects [count == 0] with
    [AEROSPIKE_ERR_PARAM] and leaves the vector as it was; the decoder has
    no such guard: on the 16-byte blob whose header announces no element it
    returns [AEROSPIKE_OK] and a vector of size 0. *)
Theorem zero_count_at_construction_and_decoding :
  (forall vector data,
      as_ml_vector_init_float32 vector data 0 = Ret (AEROSPIKE_ERR_PARAM, vector)
      /\ as_ml_vector_init_float64 vector data 0 = Ret (AEROSPIKE_ERR_PARAM, vector)
      /\ as_ml_vector_init_int32 vector data 0 = Ret (AEROSPIKE_ERR_PARAM, vector)
      /\ as_ml_vector_init_int64 vector data 0 = Ret (AEROSPIKE_ERR_PARAM, vector))
  /\ (forall host_big_endian v0 t0,
        as_ml_vector_deserialize host_big_endian (Some (blob blob_of_no_element))
          (Some v0) (Some t0)
        = Ret (AEROSPIKE_OK,
               Some {| vec_list := Some []; vec_size := 0; vec_item_size := 4 |},
               Some AS_ML_VECTOR_FLOAT32)).
Proof.
  split.
  - intros vector data.
    unfold as_ml_vector_init_float32, as_ml_vector_init_float64,
      as_ml_vector_init_int32, as_ml_vector_init_int64, ml_vector_init.
    destruct vector, data; auto.
  - intros [|] v0 t0; reflexivity.
Qed.

(** ** The encoder *)

Lemma store_at (pre old post bs : list byte) (off : Z) :
  off = Z.of_nat (length pre) -> length old = length bs ->
  store (pre ++ old ++ post) off bs = Ret (pre ++ bs ++ post).
Proof. intros ->. apply store_chunk. Qed.

(** Four words stored at offsets 0, 4, 8 and 12 of a buffer overwrite its
    first sixteen bytes. *)
Lemma store_header (A : Type) (buffer e0 e1 e2 e3 : list byte)
    (k : list byte -> run A) :
  length e0 = 4%nat -> length e1 = 4%nat -> length e2 = 4%nat -> length e3 = 4%nat ->
  (16 <= length buffer)%nat ->
  (b <- store buffer 0 e0 ;; b <- store b 4 e1 ;; b <- store b 8 e2 ;;
   b <- store b 12 e3 ;; k b)
  = k (e0 ++ e1 ++ e2 ++ e3 ++ skipn 16 buffer).
Proof.
  intros H0 H1 H2 H3 Hlen.
  destruct (split_chunk 4 buffer) as (c0 & r0 & -> & Hc0 & Hr0); [lia|].
  destruct (split_chunk 4 r0) as (c1 & r1 & -> & Hc1 & Hr1); [rewrite length_app in Hlen; lia|].
  destruct (split_chunk 4 r1) as (c2 & r2 & -> & Hc2 & Hr2);
    [rewrite !length_app in Hlen; lia|].
  destruct (split_chunk 4 r2) as (c3 & r3 & -> & Hc3 & Hr3);
    [rewrite !length_app in Hlen; lia|].
  replace (skipn 16 (c0 ++ c1 ++ c2 ++ c3 ++ r3)) with r3.
  2:{ rewrite !app_assoc. rewrite skipn_app.
      rewrite skipn_all2 by (rewrite !length_app; lia).
      rewrite !length_app.
      replace (16 - (length c0 + length c1 + length c2 + length c3))%nat with 0%nat by lia.
      reflexivity. }
  change (c0 ++ c1 ++ c2 ++ c3 ++ r3) with ([] ++ c0 ++ c1 ++ c2 ++ c3 ++ r3) at 1.
  rewrite (store_at [] c0 (c1 ++ c2 ++ c3 ++ r3) e0 0) by (simpl; lia).
  cbn [bind app].
  rewrite (store_at e0 c1 (c2 ++ c3 ++ r3) e1 4) by lia.
  cbn [bind]. rewrite (app_assoc e0 e1).
  rewrite (store_at (e0 ++ e1) c2 (c3 ++ r3) e2 8) by (rewrite ?length_app; lia).
  cbn [bind]. rewrite (app_assoc (e0 ++ e1) e2).
  rewrite (store_at ((e0 ++ e1) ++ e2) c3 r3 e3 12) by (rewrite ?length_app; lia).
  cbn [bind]. rewrite <- !app_assoc. reflexivity.
Qed.

Lemma store_tail (pre old bs : list byte) (off : Z) :
  off = Z.of_nat (length pre) -> length old = length bs ->
  store (pre ++ old) off bs = Ret (pre ++ bs).
Proof.
  intros Hoff Hlen.
  pose proof (store_at pre old [] bs off Hoff Hlen) as H.
  rewrite !app_nil_r in H. exact H.
Qed.

Lemma store_tail_out_of_bounds (pre old bs : list byte) (off : Z) :
  off = Z.of_nat (length pre) -> (length old < length bs)%nat ->
  store (pre ++ old) off bs = Undefined.
Proof.
  intros -> Hlen. apply store_out_of_bounds. rewrite length_app. lia.
Qed.

Lemma header_length (count : Z) (t : as_ml_vector_element_type) :
  length (header count t) = 16%nat.
Proof. reflexivity. Qed.

Section EncoderFacts.

Variable host_big_endian : bool.
Variable malloc : Z -> option (list byte).
Hypothesis malloc_returns_the_size : malloc_sound malloc.

(** The encoder on a vector it does not reject, where the sizes do not wrap:
    it fails only if [malloc] does, and the blob is the header followed by
    the storage of the vector. *)
Lemma serialize_in_range (v : as_vector) (t : as_ml_vector_element_type)
    (b0 : as_bytes) (l : list byte) :
  vec_list v = Some l ->
  Z.of_nat (length l) = vec_size v * vec_item_size v ->
  0 < vec_size v ->
  as_ml_vector_element_size t <> 0 ->
  vec_item_size v = as_ml_vector_element_size t ->
  16 + vec_size v * as_ml_vector_element_size t < 2 ^ 32 ->
  as_ml_vector_serialize host_big_endian malloc (Some v) t (Some b0) =
    match malloc (16 + vec_size v * as_ml_vector_element_size t) with
    | None => Ret (AEROSPIKE_ERR_CLIENT, Some b0)
    | Some _ => Ret (AEROSPIKE_OK, Some (blob (header (vec_size v) t ++ l)))
    end.
Proof.
  intros Hl Hlen Hsize Hes Hitem Hfit.
  unfold as_ml_vector_serialize. rewrite Hl.
  destruct (vec_size v =? 0) eqn:E0; [zbool; lia|].
  destruct (as_ml_vector_element_size t =? 0) eqn:E1; [zbool; lia|].
  destruct (vec_item_size v =? as_ml_vector_element_size t) eqn:E2; [|zbool; lia].
  cbn [negb]. cbv zeta.
  assert (Hes' : 0 < as_ml_vector_element_size t)
    by (destruct (element_size_cases t) as [[? _]|[[? _]|[? _]]]; lia).
  rewrite (wrap32_small (vec_size v * _)) by nia.
  rewrite (wrap32_small (16 + _)) by nia.
  destruct (malloc _) as [buffer|] eqn:M; [|reflexivity].
  apply malloc_returns_the_size in M; [|nia].
  unfold store32. rewrite store_header;
    try apply native_encode32_length; [|lia].
  rewrite !store_swapped_is_big_endian.
  rewrite slice_in_bounds by nia. cbn [bind].
  rewrite Hitem in Hlen.
  change (skipn (Z.to_nat 0) l) with l.
  rewrite firstn_all2 by lia.
  rewrite !app_assoc. rewrite store_tail;
    [|rewrite !length_app, !encode_be32_length; reflexivity
     |rewrite length_skipn; nia].
  cbn [bind]. f_equal. f_equal. f_equal. unfold blob, header.
  rewrite <- !app_assoc.
  assert (Ht : wrap32 t = t).
  { apply wrap32_small.
    destruct (element_size_cases t) as [[_ [-> | ->]]|[[_ [-> | ->]]|[? _]]];
      [| | | |contradiction]; vm_compute; split; congruence. }
  rewrite Ht. f_equal.
  rewrite !length_app, !encode_be32_length. lia.
Qed.

End EncoderFacts.

(** ** The encoder: rejected arguments *)

Section EncoderErrors.

Variable host_big_endian : bool.
Variable malloc : Z -> option (list byte).

Lemma serialize_rejects (vector : option as_vector)
    (t : as_ml_vector_element_type) (bytes : option as_bytes) :
  vector_empty vector
  \/ as_ml_vector_element_size t = 0
  \/ (exists v, vector = Some v /\ vec_item_size v <> as_ml_vector_element_size t) ->
  as_ml_vector_serialize host_big_endian malloc vector t bytes
    = Ret (AEROSPIKE_ERR_PARAM, bytes).
Proof.
  intros H. unfold as_ml_vector_serialize.
  destruct vector as [v|]; [|reflexivity].
  destruct bytes as [b0|]; [|reflexivity].
  destruct (vec_list v) as [l|] eqn:El; [|reflexivity].
  destruct (vec_size v =? 0) eqn:E0; [reflexivity|].
  destruct (as_ml_vector_element_size t =? 0) eqn:E1; [reflexivity|].
  destruct (vec_item_size v =? as_ml_vector_element_size t) eqn:E2; [|reflexivity].
  zbool. exfalso.
  destruct H as [[H|H]|[H|(v' & Hv & H)]]; congruence.
Qed.

Lemma serialize_param_inv (vector : option as_vector)
    (t : as_ml_vector_element_type) (b0 : as_bytes) (out : option as_bytes) :
  as_ml_vector_serialize host_big_endian malloc vector t (Some b0)
    = Ret (AEROSPIKE_ERR_PARAM, out) ->
  vector_empty vector
  \/ as_ml_vector_element_size t = 0
  \/ (exists v, vector = Some v /\ vec_item_size v <> as_ml_vector_element_size t).
Proof.
  unfold as_ml_vector_serialize, vector_empty. intros H.
  destruct vector as [v|]; [|auto].
  destruct (vec_list v) as [l|] eqn:El; [|auto].
  destruct (vec_size v =? 0) eqn:E0; [zbool; auto|].
  destruct (as_ml_vector_element_size t =? 0) eqn:E1; [zbool; auto|].
  destruct (vec_item_size v =? as_ml_vector_element_size t) eqn:E2;
    [|zbool; right; right; eauto].
  exfalso. cbn [negb] in H. cbv zeta in H.
  destruct (malloc _) as [buffer|]; [|discriminate].
  destruct (store32 _ buffer 0 _) as [b1|]; [cbn [bind] in H|discriminate].
  destruct (store32 _ b1 4 _) as [b2|]; [cbn [bind] in H|discriminate].
  destruct (store32 _ b2 8 _) as [b3|]; [cbn [bind] in H|discriminate].
  destruct (store32 _ b3 12 _) as [b4|]; [cbn [bind] in H|discriminate].
  destruct (slice l 0 _) as [data|]; [cbn [bind] in H|discriminate].
  destruct (store b4 16 data) as [b5|]; [cbn [bind] in H|discriminate].
  discriminate.
Qed.

(** C6 (amended).  The encoder fails with an invalid argument
    ([AEROSPIKE_ERR_PARAM]) exactly when the output [as_bytes] is absent, the
    vector is empty (absent, without storage or of size 0), the element type
    is not one of the four tags 1..4, or the item size of the vector is not
    the size of the element type; the size lookup returns 0 exactly for the
    types outside the four tags, 4 for [float32] and [int32], 8 for [float64]
    and [int64]; and a vector whose item size is not the size of the declared
    type is always rejected so, the output left as it was. *)
Theorem serialize_invalid_argument (vector : option as_vector)
    (t : as_ml_vector_element_type) (bytes : option as_bytes) :
  ((exists status out,
       as_ml_vector_serialize host_big_endian malloc vector t bytes
         = Ret (status, out)
       /\ error_kind_of status = Some InvalidArgument)
   <-> (bytes = None
        \/ vector_empty vector
        \/ ~ (1 <= t <= 4)
        \/ (exists v, vector = Some v
                      /\ vec_item_size v <> as_ml_vector_element_size t)))
  /\ (as_ml_vector_element_size t = 0 <-> ~ (1 <= t <= 4))
  /\ (as_ml_vector_element_size AS_ML_VECTOR_FLOAT32 = 4
      /\ as_ml_vector_element_size AS_ML_VECTOR_INT32 = 4
      /\ as_ml_vector_element_size AS_ML_VECTOR_FLOAT64 = 8
      /\ as_ml_vector_element_size AS_ML_VECTOR_INT64 = 8)
  /\ (forall v bytes,
        vec_item_size v <> as_ml_vector_element_size t ->
        as_ml_vector_serialize host_big_endian malloc (Some v) t bytes
          = Ret (AEROSPIKE_ERR_PARAM, bytes)).
Proof.
  assert (Htags : as_ml_vector_element_size t = 0 <-> ~ (1 <= t <= 4)).
  { destruct (element_size_cases t) as [[E H]|[[E H]|[E H]]];
      unfold AS_ML_VECTOR_FLOAT32, AS_ML_VECTOR_INT32, AS_ML_VECTOR_FLOAT64,
        AS_ML_VECTOR_INT64 in H; rewrite E; split; intros; lia. }
  split; [split|split; [exact Htags|split; [repeat split|]]].
  - intros (status & out & H & Hk).
    destruct status; try discriminate.
    destruct bytes as [b0|]; [right|left; reflexivity].
    rewrite <- Htags. eapply serialize_param_inv; eauto.
  - intros [->|H].
    + exists AEROSPIKE_ERR_PARAM, None. split; [|reflexivity].
      unfold as_ml_vector_serialize. destruct vector; reflexivity.
    + exists AEROSPIKE_ERR_PARAM, bytes. split; [|reflexivity].
      apply serialize_rejects. rewrite Htags. exact H.
  - intros v bytes' H. apply serialize_rejects. right. right. eauto.
Qed.

End EncoderErrors.

Lemma serialize_invalid_argument_witness :
  as_ml_vector_serialize false malloc_zeroed (Some vector_of_two_floats)
    AS_ML_VECTOR_FLOAT64 (Some fresh_bytes)
  = Ret (AEROSPIKE_ERR_PARAM, Some fresh_bytes).
Proof.
  apply (serialize_invalid_argument false malloc_zeroed
           (Some vector_of_two_floats) AS_ML_VECTOR_FLOAT64 (Some fresh_bytes)).
  vm_compute. discriminate.
Defined.

(** C6, as stated, fails: without an [as_bytes] to fill, the encoder rejects
    a vector of two items that is not empty, under an element type of the
    four tags whose size is the item size of the vector. *)
Lemma serialize_rejects_absent_output :
  as_ml_vector_serialize false malloc_zeroed (Some vector_of_two_floats)
    AS_ML_VECTOR_FLOAT32 None
  = Ret (AEROSPIKE_ERR_PARAM, None)
  /\ error_kind_of AEROSPIKE_ERR_PARAM = Some InvalidArgument
  /\ ~ vector_empty (Some vector_of_two_floats)
  /\ as_ml_vector_element_size AS_ML_VECTOR_FLOAT32 <> 0
  /\ 1 <= AS_ML_VECTOR_FLOAT32 <= 4
  /\ vec_item_size vector_of_two_floats
     = as_ml_vector_element_size AS_ML_VECTOR_FLOAT32.
Proof.
  split; [reflexivity|]. split; [reflexivity|].
  split; [intros [H|H]; vm_compute in H; discriminate|].
  split; [vm_compute; discriminate|].
  split; [vm_compute; split; discriminate|reflexivity].
Qed.

(** ** Sizes that wrap *)

Lemma huge_storage_length : Z.of_nat (length huge_storage) = 4294967296.
Proof.
  unfold huge_storage. rewrite repeat_length. apply Z2Nat.id. discriminate.
Qed.

Lemma huge_vector_wf : vector_wf huge_vector.
Proof.
  unfold vector_wf, huge_vector. cbn [vec_size vec_list vec_item_size].
  split; [split; [discriminate|reflexivity]|].
  rewrite huge_storage_length. reflexivity.
Qed.

Section Wrapping.

Variable host_big_endian : bool.

(** The encoder on [2^30] items of 4 bytes: [data_size] wraps to 0 and
    [total_size] is 16; the blob is a bare header that announces [2^30]
    elements. *)
Lemma serialize_wrapped (v : as_vector) (l : list byte) (b0 : as_bytes) :
  vec_list v = Some l ->
  vec_size v = 1073741824 ->
  vec_item_size v = 4 ->
  Z.of_nat (length l) = 4294967296 ->
  as_ml_vector_serialize host_big_endian malloc_zeroed (Some v)
    AS_ML_VECTOR_FLOAT32 (Some b0)
  = Ret (AEROSPIKE_OK, Some (blob blob_of_wrapped_size)).
Proof.
  intros Hl Hs Hi Hlen. unfold as_ml_vector_serialize. rewrite Hl, Hs, Hi.
  change (as_ml_vector_element_size AS_ML_VECTOR_FLOAT32) with 4.
  change (1073741824 =? 0) with false. change (4 =? 0) with false.
  change (4 =? 4) with true. cbv beta iota zeta. cbn [negb].
  change (wrap32 (1073741824 * 4)) with 0.
  change (wrap32 (16 + 0)) with 16.
  change (malloc_zeroed 16) with (Some (repeat x00 16)). cbv beta iota.
  unfold store32.
  rewrite store_header; try apply native_encode32_length; [|reflexivity].
  rewrite !store_swapped_is_big_endian.
  rewrite slice_in_bounds by lia. cbn [bind].
  change (firstn (Z.to_nat 0) (skipn (Z.to_nat 0) l)) with (@nil byte).
  reflexivity.
Qed.

(** The decoder on that blob: [expected_data_size] wraps to 0 as well, the
    size check passes, and the first round of the copy reads behind the end
    of the buffer. *)
Lemma deserialize_wrapped (v0 : as_vector) (t0 : as_ml_vector_element_type) :
  as_ml_vector_deserialize host_big_endian (Some (blob blob_of_wrapped_size))
    (Some v0) (Some t0)
  = Undefined.
Proof.
  rewrite (deserialize_checks host_big_endian (blob blob_of_wrapped_size)
             blob_of_wrapped_size);
    [|reflexivity|discriminate|discriminate].
  assert (Hm : blob_magic blob_of_wrapped_size = AS_ML_VECTOR_MAGIC_NUMBER)
    by reflexivity.
  assert (Hv : blob_version blob_of_wrapped_size = AS_ML_VECTOR_VERSION)
    by reflexivity.
  assert (Hc : blob_count blob_of_wrapped_size = 1073741824) by reflexivity.
  assert (Ht : blob_type blob_of_wrapped_size = AS_ML_VECTOR_FLOAT32) by reflexivity.
  cbv zeta. rewrite Hm, Hv, Hc, Ht.
  change (as_ml_vector_element_size AS_ML_VECTOR_FLOAT32) with 4.
  change (bytes_size (blob blob_of_wrapped_size)) with 16.
  change (wrap32 (16 + wrap32 (1073741824 * 4))) with 16.
  rewrite !Z.eqb_refl. change (4 =? 0) with false. cbn [negb].
  rewrite append_loop_first_read_undefined; [reflexivity|lia|].
  apply slice_out_of_bounds. change (Z.of_nat (length blob_of_wrapped_size)) with 16.
  change (wrap32 (0 * 4)) with 0. lia.
Qed.

End Wrapping.

(** C2, as stated, fails.  A blob cut short, to 17 bytes or to 8, is
    rejected, but with [AEROSPIKE_ERR_PARAM], the status of an absent blob
    and of every other rejected argument: an invalid argument in the spec's
    taxonomy, not an invalid format.  And the 16-byte header that announces
    [2^30] elements of 4 bytes, whose length is not [16 + 2^30 * 4], is not
    rejected: the product wraps, the size check passes and the copy reads
    outside the blob. *)
Lemma truncated_blob_is_not_an_invalid_format :
  Z.of_nat (length truncated_blob)
    <> 16 + blob_count truncated_blob
            * as_ml_vector_element_size (blob_type truncated_blob)
  /\ as_ml_vector_deserialize false (Some (blob truncated_blob))
       (Some fresh_vector) (Some fresh_type)
     = Ret (AEROSPIKE_ERR_PARAM, Some fresh_vector, Some fresh_type)
  /\ as_ml_vector_deserialize false (Some (blob (firstn 8 blob_of_one_float)))
       (Some fresh_vector) (Some fresh_type)
     = Ret (AEROSPIKE_ERR_PARAM, Some fresh_vector, Some fresh_type)
  /\ as_ml_vector_deserialize false None (Some fresh_vector) (Some fresh_type)
     = Ret (AEROSPIKE_ERR_PARAM, Some fresh_vector, Some fresh_type)
  /\ error_kind_of AEROSPIKE_ERR_PARAM = Some InvalidArgument
  /\ error_kind_of AEROSPIKE_ERR_PARAM <> Some InvalidFormat
  /\ Z.of_nat (length blob_of_wrapped_size)
     <> 16 + blob_count blob_of_wrapped_size
             * as_ml_vector_element_size (blob_type blob_of_wrapped_size)
  /\ as_ml_vector_deserialize false (Some (blob blob_of_wrapped_size))
       (Some fresh_vector) (Some fresh_type)
     = Undefined.
Proof.
  do 7 (split; [vm_compute; congruence|]).
  apply deserialize_wrapped.
Qed.

(** C5.  On a vector of [2^30] [float32] items the encoder returns
    [AEROSPIKE_OK] and a blob of 16 bytes, the header alone: the length is
    not [16 + count * element_size] and no payload follows the header. *)
Theorem serialize_wraps_the_size (host_big_endian : bool) (b0 : as_bytes) :
  vector_wf huge_vector
  /\ as_ml_vector_serialize host_big_endian malloc_zeroed (Some huge_vector)
       AS_ML_VECTOR_FLOAT32 (Some b0)
     = Ret (AEROSPIKE_OK,
            Some (blob (header (vec_size huge_vector) AS_ML_VECTOR_FLOAT32)))
  /\ Z.of_nat (length (header (vec_size huge_vector) AS_ML_VECTOR_FLOAT32))
     <> 16 + vec_size huge_vector
             * as_ml_vector_element_size AS_ML_VECTOR_FLOAT32.
Proof.
  split; [exact huge_vector_wf|split].
  - exact (serialize_wrapped host_big_endian huge_vector huge_storage b0
             eq_refl eq_refl eq_refl huge_storage_length).
  - rewrite header_length. discriminate.
Qed.

(** C1.  On a vector of [2^30] [float32] items the encoder succeeds, and the
    decoder, applied to the blob it returns, passes every check and then
    reads outside the blob: no vector comes back. *)
Theorem roundtrip_fails_when_sizes_wrap (host_big_endian : bool) (b0 : as_bytes)
    (v0 : as_vector) (t0 : as_ml_vector_element_type) :
  vector_wf huge_vector
  /\ 1 <= vec_size huge_vector
  /\ vec_item_size huge_vector = as_ml_vector_element_size AS_ML_VECTOR_FLOAT32
  /\ exists out,
       as_ml_vector_serialize host_big_endian malloc_zeroed (Some huge_vector)
         AS_ML_VECTOR_FLOAT32 (Some b0)
       = Ret (AEROSPIKE_OK, Some out)
       /\ as_ml_vector_deserialize host_big_endian (Some out) (Some v0) (Some t0)
          = Undefined.
Proof.
  split; [exact huge_vector_wf|]. split; [discriminate|]. split; [reflexivity|].
  exists (blob blob_of_wrapped_size). split.
  - exact (serialize_wrapped host_big_endian huge_vector huge_storage b0
             eq_refl eq_refl eq_refl huge_storage_length).
  - apply deserialize_wrapped.
Qed.

(** ** The round trip where the sizes do not wrap *)

Lemma header_fields (count : Z) (t : as_ml_vector_element_type) (l : list byte) :
  blob_magic (header count t ++ l) = AS_ML_VECTOR_MAGIC_NUMBER
  /\ blob_version (header count t ++ l) = AS_ML_VECTOR_VERSION
  /\ blob_count (header count t ++ l) = wrap32 count
  /\ blob_type (header count t ++ l) = wrap32 t
  /\ skipn 16 (header count t ++ l) = l.
Proof.
  unfold blob_magic, blob_version, blob_count, blob_type, header_field.
  split; [|split; [|split; [|split; [|reflexivity]]]].
  - change (firstn 4 (skipn (Z.to_nat 0) (header count t ++ l)))
      with (encode_be32 AS_ML_VECTOR_MAGIC_NUMBER).
    rewrite decode_encode_be32. reflexivity.
  - change (firstn 4 (skipn (Z.to_nat 4) (header count t ++ l)))
      with (encode_be32 AS_ML_VECTOR_VERSION).
    rewrite decode_encode_be32. reflexivity.
  - change (firstn 4 (skipn (Z.to_nat 8) (header count t ++ l)))
      with (encode_be32 count).
    apply decode_encode_be32.
  - change (firstn 4 (skipn (Z.to_nat 12) (header count t ++ l)))
      with (encode_be32 t).
    apply decode_encode_be32.
Qed.

Section RoundTrip.

Variable host_big_endian : bool.
Variable malloc : Z -> option (list byte).
Hypothesis malloc_returns_the_size : malloc_sound malloc.

(** Where [16 + count * element_size] is below [2^32], a blob the encoder
    returns decodes to the element type, the count and the item bytes of
    the vector it was made from. *)
Lemma roundtrip_in_range (v : as_vector) (t : as_ml_vector_element_type)
    (b0 out : as_bytes) (l : list byte) (v0 : as_vector)
    (t0 : as_ml_vector_element_type) :
  vec_list v = Some l ->
  vector_wf v ->
  16 + vec_size v * as_ml_vector_element_size t < 2 ^ 32 ->
  as_ml_vector_serialize host_big_endian malloc (Some v) t (Some b0)
    = Ret (AEROSPIKE_OK, Some out) ->
  as_ml_vector_deserialize host_big_endian (Some out) (Some v0) (Some t0)
    = Ret (AEROSPIKE_OK,
           Some {| vec_list := Some l; vec_size := vec_size v;
                   vec_item_size := as_ml_vector_element_size t |},
           Some t).
Proof.
  intros Hl [Hsize Hlen] Hfit Hser. rewrite Hl in Hlen.
  assert (Hcond : vec_size v <> 0 /\ as_ml_vector_element_size t <> 0
                  /\ vec_item_size v = as_ml_vector_element_size t).
  { destruct (Z.eq_dec (vec_size v) 0) as [E|E].
    { rewrite serialize_rejects in Hser by (left; right; exact E). discriminate. }
    destruct (Z.eq_dec (as_ml_vector_element_size t) 0) as [E'|E'].
    { rewrite serialize_rejects in Hser by (right; left; exact E'). discriminate. }
    destruct (Z.eq_dec (vec_item_size v) (as_ml_vector_element_size t)) as [E''|E''].
    { auto. }
    rewrite serialize_rejects in Hser by (right; right; eauto). discriminate. }
  destruct Hcond as (Hnz & Hes & Hitem).
  rewrite (serialize_in_range host_big_endian malloc malloc_returns_the_size
             v t b0 l Hl Hlen) in Hser by (assumption || lia).
  destruct (malloc _); [|discriminate].
  assert (Hout : out = blob (header (vec_size v) t ++ l))
    by (injection Hser; intros <-; reflexivity).
  clear Hser. subst out.
  assert (Ht : wrap32 t = t /\ 0 < as_ml_vector_element_size t).
  { destruct (element_size_cases t) as [[-> [-> | ->]]|[[-> [-> | ->]]|[? _]]];
      [| | | |contradiction]; split; reflexivity. }
  destruct Ht as [Ht Hpos].
  destruct (header_fields (vec_size v) t l) as (Hm & Hv & Hc & Hty & Hpay).
  rewrite Ht in Hty. rewrite wrap32_small in Hc by exact Hsize.
  assert (Hplen : Z.of_nat (length (header (vec_size v) t ++ l))
                  = 16 + vec_size v * as_ml_vector_element_size t)
    by (rewrite length_app, header_length; lia).
  rewrite (deserialize_checks host_big_endian _ (header (vec_size v) t ++ l));
    [|reflexivity
     |change (bytes_size (blob (header (vec_size v) t ++ l)))
        with (Z.of_nat (length (header (vec_size v) t ++ l))); rewrite Hplen; nia
     |rewrite Hplen; nia].
  cbv zeta. rewrite Hm, Hv, Hc, Hty, !Z.eqb_refl. cbn [negb].
  destruct (as_ml_vector_element_size t =? 0) eqn:E; [zbool; contradiction|].
  change (bytes_size (blob (header (vec_size v) t ++ l)))
    with (Z.of_nat (length (header (vec_size v) t ++ l))).
  rewrite (wrap32_small (_ * _)) by nia. rewrite (wrap32_small (16 + _)) by nia.
  rewrite Hplen, Z.eqb_refl. cbn [negb].
  rewrite (append_loop_copies _ (header (vec_size v) t ++ l) 16
             (as_ml_vector_element_size t) Hpos ltac:(lia)
             (Z.to_nat (vec_size v)) 0 _ []); cbn [as_vector_init vec_list vec_size vec_item_size];
    try lia; try reflexivity.
  - cbn [bind app]. rewrite Z2Nat.id, Z.mul_0_l, Z.add_0_r, Z.add_0_l by lia.
    change (Z.to_nat 16) with 16%nat.
    rewrite Hpay, firstn_all2 by lia. reflexivity.
  - intros j Hj. rewrite wrap32_small by nia. reflexivity.
Qed.

End RoundTrip.

Lemma malloc_zeroed_sound : malloc_sound malloc_zeroed.
Proof.
  intros n buffer Hn H. injection H as <-. rewrite repeat_length. lia.
Qed.

(** The blob of two [float32] items, byte by byte, on either host. *)
Example serialize_two_floats (host_big_endian : bool) :
  as_ml_vector_serialize host_big_endian malloc_zeroed (Some vector_of_two_floats)
    AS_ML_VECTOR_FLOAT32 (Some fresh_bytes)
  = Ret (AEROSPIKE_OK,
         Some (blob [x56; x45; x43; x54; x00; x00; x00; x01;
                     x00; x00; x00; x02; x00; x00; x00; x01;
                     x00; x00; x80; x3f; x00; x00; x00; x40])).
Proof. destruct host_big_endian; reflexivity. Qed.

Example roundtrip_two_floats (host_big_endian : bool) (out : as_bytes) :
  as_ml_vector_serialize host_big_endian malloc_zeroed (Some vector_of_two_floats)
    AS_ML_VECTOR_FLOAT32 (Some fresh_bytes)
  = Ret (AEROSPIKE_OK, Some out) ->
  as_ml_vector_deserialize host_big_endian (Some out) (Some fresh_vector)
    (Some fresh_type)
  = Ret (AEROSPIKE_OK, Some vector_of_two_floats, Some AS_ML_VECTOR_FLOAT32).
Proof.
  apply (roundtrip_in_range host_big_endian malloc_zeroed malloc_zeroed_sound
           vector_of_two_floats AS_ML_VECTOR_FLOAT32 fresh_bytes out two_floats).
  - reflexivity.
  - split; [split; [discriminate|reflexivity]|reflexivity].
  - reflexivity.
Qed.

(** ** Decimal digits *)

Local Open Scope N_scope.

Lemma digit_char_spec (d : N) :
  d < 10 -> isdigit (digit_char d) = true /\ N_of_ascii (digit_char d) - 48 = d.
Proof.
  intros H. unfold isdigit, digit_char.
  rewrite N_ascii_embedding by lia. split; [|lia].
  apply andb_true_intro. split; apply N.leb_le; lia.
Qed.

Lemma digit_char_zero (d : N) : d < 10 -> digit_char d = "0"%char -> d = 0.
Proof.
  intros H E. apply (f_equal N_of_ascii) in E. unfold digit_char in E.
  rewrite N_ascii_embedding in E by lia.
  change (N_of_ascii "0") with 48 in E. lia.
Qed.

Lemma print_digits_acc (fuel : nat) (n : N) (acc : string) :
  print_digits fuel n acc = (print_digits fuel n EmptyString ++ acc)%string.
Proof.
  revert n acc. induction fuel as [|fuel IH]; intros n acc; [reflexivity|].
  cbn [print_digits]. destruct (n / 10 =? 0); [reflexivity|].
  rewrite (IH _ (String _ acc)), (IH _ (String _ EmptyString)).
  induction (print_digits fuel (n / 10) "") as [|c s IHs]; [reflexivity|].
  simpl. f_equal. exact IHs.
Qed.

Lemma all_chars_app (f : ascii -> bool) (s t : string) :
  all_chars f (s ++ t) = all_chars f s && all_chars f t.
Proof.
  induction s as [|c s IH]; [reflexivity|]. simpl. rewrite IH. apply andb_assoc.
Qed.

Lemma digits_value_app (s t : string) (acc : N) :
  digits_value (s ++ t) acc = digits_value t (digits_value s acc).
Proof.
  revert acc. induction s as [|c s IH]; intros acc; [reflexivity|]. simpl. apply IH.
Qed.

Lemma string_length_app (s t : string) :
  String.length (s ++ t) = (String.length s + String.length t)%nat.
Proof. induction s as [|c s IH]; simpl; [reflexivity|]. rewrite IH. reflexivity. Qed.

(** With enough fuel, the digits printed for [n] are digits, are worth [n],
    start with no zero unless [n] is 0, and are no more than [k] when
    [n < 10^k]. *)
Lemma print_digits_spec (fuel : nat) :
  forall n, n < 2 ^ N.of_nat fuel -> (0 < fuel)%nat ->
    let s := print_digits fuel n EmptyString in
    all_chars isdigit s = true
    /\ digits_value s 0 = n
    /\ (exists c rest, s = String c rest /\ (n <> 0 -> c <> "0"%char))
    /\ (forall k, (0 < k)%nat -> n < 10 ^ N.of_nat k -> (String.length s <= k)%nat).
Proof.
  induction fuel as [|fuel IH]; intros n Hn Hfuel; [lia|]. clear Hfuel.
  cbn [print_digits]. cbv zeta.
  assert (Hd : n mod 10 < 10) by (apply N.mod_lt; lia).
  destruct (digit_char_spec _ Hd) as [Hdig Hval].
  destruct (n / 10 =? 0) eqn:E.
  - apply N.eqb_eq in E.
    assert (Hsmall : n mod 10 = n).
    { pose proof (N.div_mod n 10 ltac:(lia)) as Hdm. rewrite E in Hdm. lia. }
    repeat split.
    + simpl. rewrite Hdig. reflexivity.
    + simpl. rewrite Hval. exact Hsmall.
    + eexists _, _. split; [reflexivity|]. intros Hnz Hz.
      apply digit_char_zero in Hz; [|exact Hd]. lia.
    + intros k Hk _. simpl. lia.
  - apply N.eqb_neq in E.
    assert (Hq : n / 10 < 2 ^ N.of_nat fuel).
    { rewrite Nnat.Nat2N.inj_succ, N.pow_succ_r' in Hn.
      apply N.Div0.div_lt_upper_bound. lia. }
    assert (Hfuel : (0 < fuel)%nat).
    { destruct fuel; [|lia]. change (2 ^ N.of_nat 0) with 1 in Hq.
      apply N.lt_1_r in Hq. contradiction. }
    destruct (IH _ Hq Hfuel) as (Hall & Hv & (c & rest & Hs & Hc) & Hk).
    rewrite print_digits_acc. cbv zeta in *.
    repeat split.
    + rewrite all_chars_app, Hall. simpl. rewrite Hdig. reflexivity.
    + rewrite digits_value_app, Hv. simpl. rewrite Hval.
      pose proof (N.div_mod n 10 ltac:(lia)). lia.
    + rewrite Hs. eexists _, _. split; [reflexivity|]. intros _. apply Hc, E.
    + intros k Hpos Hlt. rewrite string_length_app. simpl.
      destruct k as [|[|k]]; [lia| |].
      * change (10 ^ N.of_nat 1) with 10 in Hlt.
        exfalso. apply E. apply N.div_small. exact Hlt.
      * assert (String.length (print_digits fuel (n / 10) "") <= S k)%nat; [|lia].
        apply Hk; [lia|].
        rewrite (Nnat.Nat2N.inj_succ (S k)), N.pow_succ_r' in Hlt.
        apply N.Div0.div_lt_upper_bound. lia.
Qed.

Lemma print_hu_fuel (n : N) : n < 2 ^ N.of_nat (S (N.to_nat (N.log2 n))).
Proof.
  rewrite Nnat.Nat2N.inj_succ, Nnat.N2Nat.id.
  destruct n as [|p]; [reflexivity|].
  apply N.log2_spec. reflexivity.
Qed.

(** [%hu] prints plain decimal. *)
Lemma print_hu_plain_decimal (n : N) : plain_decimal n (print_hu n).
Proof.
  unfold plain_decimal, print_hu.
  destruct (print_digits_spec _ n (print_hu_fuel n) ltac:(lia))
    as (Hall & Hv & (c & rest & Hs & Hc) & _).
  repeat split; try assumption.
  - intros ->. reflexivity.
  - intros Hnz. exists c, rest. split; [exact Hs|apply Hc, Hnz].
Qed.

Lemma print_hu_length (n : N) : n <= 65535 -> (String.length (print_hu n) <= 5)%nat.
Proof.
  intros H. unfold print_hu.
  destruct (print_digits_spec _ n (print_hu_fuel n) ltac:(lia)) as (_ & _ & _ & Hk).
  apply Hk; [lia|]. change (10 ^ N.of_nat 5) with 100000. lia.
Qed.

Local Close Scope N_scope.

(** ** The parser, loop by loop *)

Lemma numeric_not_skipped (c : ascii) :
  numeric c = true -> skipped c = false /\ is_nul c = false.
Proof.
  unfold numeric, skipped, isdigit, is_dot, is_nul, isspace.
  set (n := N_of_ascii c). intros H.
  destruct (n =? 0)%N eqn:E0; destruct (n =? 32)%N eqn:E1;
    destruct (9 <=? n)%N eqn:E2; destruct (n <=? 13)%N eqn:E3;
    destruct (48 <=? n)%N eqn:E4; destruct (n <=? 57)%N eqn:E5;
    destruct (n =? 46)%N eqn:E6; cbn in *; auto; try discriminate;
    repeat match goal with
    | H : (_ =? _)%N = true |- _ => apply N.eqb_eq in H
    | H : (_ =? _)%N = false |- _ => apply N.eqb_neq in H
    | H : (_ <=? _)%N = true |- _ => apply N.leb_le in H
    | H : (_ <=? _)%N = false |- _ => apply N.leb_gt in H
    end; lia.
Qed.

Lemma skip_whitespace_app (ws str : string) :
  all_chars skipped ws = true ->
  skip_whitespace (ws ++ str) = skip_whitespace str.
Proof.
  induction ws as [|c ws IH]; intros H; [reflexivity|].
  simpl in H. apply andb_prop in H. destruct H as [Hc Hws].
  simpl. fold (skipped c). rewrite Hc. apply IH, Hws.
Qed.

Lemma skip_whitespace_numeric (c : ascii) (str : string) :
  numeric c = true -> skip_whitespace (String c str) = String c str.
Proof.
  intros H. apply numeric_not_skipped in H. destruct H as [H _].
  simpl. fold (skipped c). rewrite H. reflexivity.
Qed.

(** The copy stops at the first character that is neither a digit nor a
    dot: what follows it does not matter. *)
Lemma copy_numeric_stops (pre : string) (c : ascii) (suffix : string) :
  all_chars numeric pre = true -> numeric c = false ->
  forall n, copy_numeric (pre ++ String c suffix) n = copy_numeric pre n.
Proof.
  intros Hpre Hc. induction pre as [|d pre IH]; intros n.
  - simpl. fold (numeric c). rewrite Hc.
    destruct (negb (is_nul c) && _); reflexivity.
  - simpl in Hpre. apply andb_prop in Hpre. destruct Hpre as [Hd Hpre].
    simpl. fold (numeric d). rewrite Hd, (IH Hpre). reflexivity.
Qed.

(** A numeric string that fits the buffer is copied whole. *)
Lemma copy_numeric_fits (str : string) :
  all_chars numeric str = true ->
  forall n, 0 <= n -> n + Z.of_nat (String.length str) <= 63 ->
  copy_numeric str n = str.
Proof.
  induction str as [|c str IH]; intros H n Hn Hfit; [reflexivity|].
  simpl in H. apply andb_prop in H. destruct H as [Hc Hstr].
  simpl in Hfit. cbn [copy_numeric]. fold (numeric c). rewrite Hc.
  destruct (numeric_not_skipped c Hc) as [_ ->].
  destruct (n <? 64 - 1) eqn:E; [|zbool; lia].
  cbn [negb andb]. rewrite IH by (assumption || lia). reflexivity.
Qed.

Lemma scan_digits_app (s rest : string) :
  all_chars isdigit s = true ->
  forall acc, scan_digits (s ++ rest) acc = scan_digits rest (digits_value s acc).
Proof.
  induction s as [|c s IH]; intros H acc; [reflexivity|].
  simpl in H. apply andb_prop in H. destruct H as [Hc Hs].
  simpl. rewrite Hc. apply IH, Hs.
Qed.

Lemma scan_digits_none (s : string) (acc : N) :
  no_digit_ahead s -> scan_digits s acc = (acc, s).
Proof.
  destruct s as [|c s]; [reflexivity|]. simpl. intros ->. reflexivity.
Qed.

(** [%hu] reads back what [%hu] printed. *)
Lemma scan_hu_print_hu (n : N) (rest : string) :
  (n <= 65535)%N -> no_digit_ahead rest ->
  scan_hu (print_hu n ++ rest) = Converted n rest.
Proof.
  intros Hn Hrest.
  destruct (print_hu_plain_decimal n) as (Hall & Hv & _ & _).
  pose proof (scan_digits_app (print_hu n) rest Hall 0%N) as Hscan.
  rewrite Hv, (scan_digits_none rest n Hrest) in Hscan.
  destruct (print_hu n) as [|c s] eqn:E.
  - unfold print_hu in E. cbn [print_digits] in E.
    destruct (n / 10 =? 0)%N; [discriminate|].
    rewrite print_digits_acc in E.
    destruct (print_digits _ _ "") in E; discriminate.
  - simpl in Hall. apply andb_prop in Hall. destruct Hall as [Hc _].
    unfold scan_hu. cbn [append]. rewrite Hc.
    change (String c (s ++ rest)) with (String c s ++ rest)%string.
    rewrite Hscan. destruct (n <=? 65535)%N eqn:E'; [reflexivity|].
    apply N.leb_gt in E'. lia.
Qed.

Lemma string_app_nil_r (s : string) : (s ++ "")%string = s.
Proof. induction s as [|c s IH]; simpl; [reflexivity|]. rewrite IH. reflexivity. Qed.

Lemma scan_hu_print_hu_end (n : N) :
  (n <= 65535)%N -> scan_hu (print_hu n) = Converted n EmptyString.
Proof.
  intros Hn. rewrite <- (string_app_nil_r (print_hu n)) at 1.
  apply scan_hu_print_hu; [exact Hn|exact I].
Qed.

Lemma all_chars_weaken (f g : ascii -> bool) (s : string) :
  (forall c, f c = true -> g c = true) ->
  all_chars f s = true -> all_chars g s = true.
Proof.
  intros Hfg. induction s as [|c s IH]; [reflexivity|]. simpl. intros H.
  apply andb_prop in H. destruct H as [Hc Hs]. rewrite (Hfg c Hc), (IH Hs). reflexivity.
Qed.

Lemma print_hu_numeric (n : N) : all_chars numeric (print_hu n) = true.
Proof.
  destruct (print_hu_plain_decimal n) as (Hall & _).
  apply (all_chars_weaken isdigit); [|exact Hall].
  intros c Hc. unfold numeric. rewrite Hc. reflexivity.
Qed.

Lemma print_hu_head (n : N) :
  exists c rest, print_hu n = String c rest /\ numeric c = true.
Proof.
  pose proof (print_hu_numeric n) as Hnum.
  destruct (print_hu_plain_decimal n) as (_ & _ & H0 & Hnz).
  destruct (N.eq_dec n 0) as [E|E].
  - rewrite (H0 E). eexists _, _. split; reflexivity.
  - destruct (Hnz E) as (c & rest & Hs & _). rewrite Hs in *.
    exists c, rest. split; [reflexivity|].
    simpl in Hnum. apply andb_prop in Hnum. apply Hnum.
Qed.

(** A numeric string that fits the buffer is the buffer [sscanf] reads. *)
Lemma buffer_of_numeric (str : string) :
  all_chars numeric str = true -> (String.length str <= 63)%nat ->
  copy_numeric (skip_whitespace str) 0 = str.
Proof.
  intros Hnum Hlen. destruct str as [|c str]; [reflexivity|].
  pose proof Hnum as Hc. simpl in Hc. apply andb_prop in Hc. destruct Hc as [Hc _].
  rewrite skip_whitespace_numeric by exact Hc.
  apply copy_numeric_fits; [exact Hnum|lia|lia].
Qed.

Section ScanDotted.

(** Four printed numbers, as [%hu] reads them back. *)
Variables (pa pb pc pd : string) (a b c d : N).
Hypothesis scan_a : forall rest, no_digit_ahead rest -> scan_hu (pa ++ rest) = Converted a rest.
Hypothesis scan_b : forall rest, no_digit_ahead rest -> scan_hu (pb ++ rest) = Converted b rest.
Hypothesis scan_c : forall rest, no_digit_ahead rest -> scan_hu (pc ++ rest) = Converted c rest.
Hypothesis scan_d : forall rest, no_digit_ahead rest -> scan_hu (pd ++ rest) = Converted d rest.

Lemma no_digit_ahead_dot (rest : string) : no_digit_ahead ("." ++ rest).
Proof. reflexivity. Qed.

Lemma sscanf_four (ver : as_version) :
  sscanf_hu_dots [set_major; set_minor; set_patch; set_build]
    (pa ++ "." ++ pb ++ "." ++ pc ++ "." ++ pd) 0 ver
  = Ret (4, mk_version a b c d).
Proof.
  cbn [sscanf_hu_dots]. change (0 =? 0) with true. cbv iota.
  rewrite scan_a by apply no_digit_ahead_dot.
  change (0 + 1 =? 0) with false. cbn [append]. change (is_dot ".") with true. cbv iota.
  rewrite scan_b by apply no_digit_ahead_dot.
  change (0 + 1 + 1 =? 0) with false. cbn [append]. change (is_dot ".") with true. cbv iota.
  rewrite scan_c by apply no_digit_ahead_dot.
  change (0 + 1 + 1 + 1 =? 0) with false. cbn [append]. change (is_dot ".") with true.
  cbv iota.
  rewrite <- (string_app_nil_r pd), scan_d by exact I.
  reflexivity.
Qed.

Lemma sscanf_three (ver : as_version) :
  sscanf_hu_dots [set_major; set_minor; set_patch; set_build]
    (pa ++ "." ++ pb ++ "." ++ pc) 0 ver
  = Ret (3, mk_version a b c (build ver)).
Proof.
  cbn [sscanf_hu_dots]. change (0 =? 0) with true. cbv iota.
  rewrite scan_a by apply no_digit_ahead_dot.
  change (0 + 1 =? 0) with false. cbn [append]. change (is_dot ".") with true. cbv iota.
  rewrite scan_b by apply no_digit_ahead_dot.
  change (0 + 1 + 1 =? 0) with false. cbn [append]. change (is_dot ".") with true. cbv iota.
  rewrite <- (string_app_nil_r pc), scan_c by exact I.
  reflexivity.
Qed.

Lemma sscanf_two (ver : as_version) :
  sscanf_hu_dots [set_major; set_minor; set_patch; set_build]
    (pa ++ "." ++ pb) 0 ver
  = Ret (2, mk_version a b (patch ver) (build ver)).
Proof.
  cbn [sscanf_hu_dots]. change (0 =? 0) with true. cbv iota.
  rewrite scan_a by apply no_digit_ahead_dot.
  change (0 + 1 =? 0) with false. cbn [append]. change (is_dot ".") with true. cbv iota.
  rewrite <- (string_app_nil_r pb), scan_b by exact I.
  reflexivity.
Qed.

End ScanDotted.

(** ** The parser *)

Lemma dotted_numeric (ns : list N) : all_chars numeric (dotted ns) = true.
Proof.
  unfold dotted. induction ns as [|n [|m ns] IH]; [reflexivity| |].
  - apply print_hu_numeric.
  - change (all_chars numeric
              (print_hu n ++ "." ++ String.concat "." (map print_hu (m :: ns))) = true).
    rewrite !all_chars_app, print_hu_numeric, IH. reflexivity.
Qed.

Lemma dotted_length (ns : list N) :
  Forall (fun n => (n <= 65535)%N) ns ->
  (String.length (dotted ns) <= 6 * length ns - 1)%nat.
Proof.
  unfold dotted. induction ns as [|n [|m ns] IH]; intros H; [simpl; lia| |].
  - inversion H; subst. pose proof (print_hu_length n ltac:(assumption)).
    cbn [map String.concat length]. lia.
  - inversion H as [|? ? Hn Hrest]; subst.
    pose proof (print_hu_length n Hn). specialize (IH Hrest).
    change (String.concat "." (map print_hu (n :: m :: ns)))
      with (print_hu n ++ "." ++ String.concat "." (map print_hu (m :: ns)))%string.
    rewrite !string_length_app. cbn [String.length length] in *. lia.
Qed.

Lemma from_string_dotted (ver : as_version) (ns : list N) :
  Forall (fun n => (n <= 65535)%N) ns -> (length ns <= 4)%nat ->
  as_version_from_string ver (dotted ns) =
    r <- sscanf_hu_dots [set_major; set_minor; set_patch; set_build] (dotted ns) 0 ver ;;
    let (rv, ver) := r in
    if rv <? 3 then Ret (false, ver)
    else if rv =? 3 then Ret (true, set_build 0 ver)
    else Ret (true, ver).
Proof.
  intros Hns Hlen. unfold as_version_from_string.
  rewrite buffer_of_numeric; [reflexivity|apply dotted_numeric|].
  pose proof (dotted_length ns Hns). lia.
Qed.

(** Numbers of 16 bits printed in decimal and joined by dots: four are
    accepted as they are, three with [build] 0, two are rejected. *)
Lemma from_string_components (ver : as_version) (a b c d : N) :
  (a <= 65535)%N -> (b <= 65535)%N -> (c <= 65535)%N -> (d <= 65535)%N ->
  as_version_from_string ver (dotted [a; b; c; d])
    = Ret (true, mk_version a b c d)
  /\ as_version_from_string ver (dotted [a; b; c])
     = Ret (true, mk_version a b c 0)
  /\ as_version_from_string ver (dotted [a; b])
     = Ret (false, mk_version a b (patch ver) (build ver)).
Proof.
  intros Ha Hb Hc Hd.
  pose proof (fun rest => scan_hu_print_hu a rest Ha) as Sa.
  pose proof (fun rest => scan_hu_print_hu b rest Hb) as Sb.
  pose proof (fun rest => scan_hu_print_hu c rest Hc) as Sc.
  pose proof (fun rest => scan_hu_print_hu d rest Hd) as Sd.
  rewrite !from_string_dotted by (repeat constructor; assumption || (simpl; lia)).
  unfold dotted. cbn [map String.concat].
  rewrite (sscanf_four _ _ _ _ a b c d Sa Sb Sc Sd).
  rewrite (sscanf_three _ _ _ a b c Sa Sb Sc).
  rewrite (sscanf_two _ _ a b Sa Sb).
  repeat split.
Qed.

(** *** The scratch buffer *)

Lemma leading_behind (f : ascii -> bool) (s : string) :
  s = (leading f s ++ behind f s)%string.
Proof.
  induction s as [|c s IH]; [reflexivity|].
  cbn [leading behind]. destruct (f c); [|reflexivity].
  cbn [append]. f_equal. exact IH.
Qed.

Lemma leading_all (f : ascii -> bool) (s : string) :
  all_chars f (leading f s) = true.
Proof.
  induction s as [|c s IH]; [reflexivity|].
  cbn [leading]. destruct (f c) eqn:E; [|reflexivity].
  cbn [all_chars]. rewrite E, IH. reflexivity.
Qed.

Lemma behind_stops (f : ascii -> bool) (s : string) : stops f (behind f s).
Proof.
  induction s as [|c s IH]; [exact I|].
  cbn [behind]. destruct (f c) eqn:E; [exact IH|exact E].
Qed.

Lemma skip_whitespace_stops (s : string) :
  stops skipped s -> skip_whitespace s = s.
Proof.
  destruct s as [|c s]; [reflexivity|]. cbn [stops skip_whitespace].
  fold (skipped c). intros ->. reflexivity.
Qed.

Lemma substring_nil (n : nat) : substring 0 n EmptyString = EmptyString.
Proof. destruct n; reflexivity. Qed.

(** The copy loop keeps the digits and dots at the head of the text, as far
    as the buffer has room. *)
Lemma copy_numeric_prefix (pre rest : string) :
  all_chars numeric pre = true -> stops numeric rest ->
  forall n, 0 <= n <= 63 ->
  copy_numeric (pre ++ rest) n = substring 0 (Z.to_nat (63 - n)) pre.
Proof.
  intros Hpre Hrest. induction pre as [|d pre IH]; intros n Hn.
  - cbn [append]. rewrite substring_nil.
    destruct rest as [|c rest]; [reflexivity|].
    cbn [stops] in Hrest. cbn [copy_numeric]. fold (numeric c). rewrite Hrest.
    destruct (negb (is_nul c) && _); reflexivity.
  - simpl in Hpre. apply andb_prop in Hpre. destruct Hpre as [Hd Hpre].
    cbn [append copy_numeric]. fold (numeric d). rewrite Hd.
    destruct (numeric_not_skipped d Hd) as [_ ->]. cbn [negb andb].
    change (64 - 1) with 63.
    destruct (n <? 63) eqn:E; zbool.
    + replace (Z.to_nat (63 - n)) with (S (Z.to_nat (63 - (n + 1)))) by lia.
      cbn [substring]. f_equal. apply IH; [exact Hpre|lia].
    + replace (Z.to_nat (63 - n)) with O by lia. reflexivity.
Qed.

(** White space, then digits and dots, then a text that starts with another
    character: the buffer holds the digits and dots, 63 of them at most. *)
Lemma buffer_of_text (ws pre rest : string) :
  all_chars skipped ws = true -> all_chars numeric pre = true ->
  stops numeric rest -> stops skipped (pre ++ rest) ->
  copy_numeric (skip_whitespace (ws ++ pre ++ rest)) 0 = substring 0 63 pre.
Proof.
  intros Hws Hpre Hrest Hstop.
  rewrite skip_whitespace_app by exact Hws.
  rewrite skip_whitespace_stops by exact Hstop.
  apply (copy_numeric_prefix pre rest Hpre Hrest 0). lia.
Qed.

(** Every text splits so. *)
Lemma text_splits (text : string) :
  exists ws pre rest,
    text = (ws ++ pre ++ rest)%string
    /\ all_chars skipped ws = true /\ all_chars numeric pre = true
    /\ stops numeric rest /\ stops skipped (pre ++ rest).
Proof.
  exists (leading skipped text), (leading numeric (behind skipped text)),
    (behind numeric (behind skipped text)).
  rewrite <- (leading_behind numeric), <- (leading_behind skipped).
  split; [reflexivity|]. split; [apply leading_all|]. split; [apply leading_all|].
  split; apply behind_stops.
Qed.

(** *** The components that [sscanf] reads *)

Lemma scan_digits_leading (s : string) :
  forall acc,
    scan_digits s acc = (digits_value (leading isdigit s) acc, behind isdigit s).
Proof.
  induction s as [|c s IH]; intros acc; [reflexivity|].
  cbn [scan_digits leading behind]. destruct (isdigit c); [|reflexivity].
  rewrite IH. reflexivity.
Qed.

Lemma scan_hu_leading (s : string) :
  scan_hu s =
    match leading isdigit s with
    | EmptyString =>
        match s with
        | EmptyString => InputFailure
        | String _ _ => MatchingFailure
        end
    | String _ _ =>
        if (digits_value (leading isdigit s) 0 <=? 65535)%N
        then Converted (digits_value (leading isdigit s) 0) (behind isdigit s)
        else Unrepresentable
    end.
Proof.
  destruct s as [|c s]; [reflexivity|].
  unfold scan_hu. rewrite scan_digits_leading.
  cbn [leading]. destruct (isdigit c); reflexivity.
Qed.

Lemma dot_separated_length (k : nat) :
  forall s, (length (dot_separated k s) <= k)%nat.
Proof.
  induction k as [|k IH]; intros s; [apply Nat.le_refl|].
  cbn [dot_separated]. destruct (leading isdigit s); [cbn [length]; lia|].
  cbn [length]. destruct (behind isdigit s) as [|c rest]; [cbn [length]; lia|].
  destruct (is_dot c); [|cbn [length]; lia].
  specialize (IH rest). lia.
Qed.

(** Behind the first component, [sscanf] assigns the components that follow
    a dot, in the order of its directives, and counts them. *)
Lemma sscanf_behind_first (setters : list (N -> as_version -> as_version)) :
  forall input assigned ver,
    0 < assigned ->
    Forall (fun n => (n <= 65535)%N) (dot_then (length setters) input) ->
    sscanf_hu_dots setters input assigned ver
    = Ret (assigned + Z.of_nat (length (dot_then (length setters) input)),
           stored setters (dot_then (length setters) input) ver).
Proof.
  induction setters as [|set setters IH]; intros input assigned ver Hpos Hns.
  - cbn [sscanf_hu_dots]. unfold dot_then.
    destruct input as [|c rest]; [|destruct (is_dot c)];
      cbn [dot_separated length stored]; rewrite Z.add_0_r; reflexivity.
  - cbn [sscanf_hu_dots]. replace (assigned =? 0) with false by (symmetry; apply Z.eqb_neq; lia).
    revert Hns. unfold dot_then at 1 2 3. cbn [length].
    destruct input as [|c rest];
      [intros _; rewrite Z.add_0_r; reflexivity|].
    destruct (is_dot c); [|intros _; rewrite Z.add_0_r; reflexivity].
    rewrite scan_hu_leading. cbn [dot_separated].
    destruct (leading isdigit rest) as [|d ds] eqn:El.
    + intros _. destruct rest; rewrite Z.add_0_r; reflexivity.
    + fold (dot_then (length setters) (behind isdigit rest)).
      intros Hns. pose proof (Forall_inv Hns) as Hn.
      pose proof (Forall_inv_tail Hns) as Hrest. cbv beta in Hn.
      apply N.leb_le in Hn. rewrite Hn.
      rewrite IH by (lia || exact Hrest).
      cbn [length]. unfold stored. cbn [combine fold_left fst snd].
      f_equal. f_equal. lia.
Qed.

(** From its first directive on: the components read are assigned and
    counted; without any, [sscanf] returns 0 or EOF and assigns nothing. *)
Lemma sscanf_from_first (set : N -> as_version -> as_version)
    (setters : list (N -> as_version -> as_version)) (buf : string)
    (ver : as_version) :
  Forall (fun n => (n <= 65535)%N) (dot_separated (S (length setters)) buf) ->
  exists rv,
    sscanf_hu_dots (set :: setters) buf 0 ver
    = Ret (rv, stored (set :: setters) (dot_separated (S (length setters)) buf) ver)
    /\ (dot_separated (S (length setters)) buf = [] -> rv <= 0)
    /\ (dot_separated (S (length setters)) buf <> [] ->
        rv = Z.of_nat (length (dot_separated (S (length setters)) buf))).
Proof.
  cbn [sscanf_hu_dots dot_separated]. change (0 =? 0) with true. cbv iota.
  rewrite scan_hu_leading.
  destruct (leading isdigit buf) as [|d ds] eqn:El.
  - intros _. destruct buf.
    + exists (-1). split; [reflexivity|]. split; [lia|congruence].
    + exists 0. split; [reflexivity|]. split; [lia|congruence].
  - fold (dot_then (length setters) (behind isdigit buf)).
    intros Hns. pose proof (Forall_inv Hns) as Hn.
    pose proof (Forall_inv_tail Hns) as Hrest. cbv beta in Hn.
    apply N.leb_le in Hn. rewrite Hn.
    exists (Z.of_nat (S (length (dot_then (length setters) (behind isdigit buf))))).
    split; [|split; [discriminate|reflexivity]].
    rewrite sscanf_behind_first by (lia || exact Hrest).
    unfold stored. cbn [combine fold_left fst snd].
    f_equal. f_equal. lia.
Qed.

Lemma sscanf_components (buf : string) (ver : as_version) :
  Forall (fun n => (n <= 65535)%N) (dot_separated 4 buf) ->
  exists rv,
    sscanf_hu_dots [set_major; set_minor; set_patch; set_build] buf 0 ver
    = Ret (rv, stored [set_major; set_minor; set_patch; set_build]
                 (dot_separated 4 buf) ver)
    /\ (dot_separated 4 buf = [] -> rv <= 0)
    /\ (dot_separated 4 buf <> [] -> rv = Z.of_nat (length (dot_separated 4 buf))).
Proof. exact (sscanf_from_first set_major [set_minor; set_patch; set_build] buf ver). Qed.

(** The parser on the components of its buffer: less than three are
    refused, three get [build] 0, four are taken as they are. *)
Lemma from_string_parsed (ver : as_version) (text : string) :
  Forall (fun n => (n <= 65535)%N)
    (dot_separated 4 (copy_numeric (skip_whitespace text) 0)) ->
  ((length (dot_separated 4 (copy_numeric (skip_whitespace text) 0)) < 3)%nat ->
   exists ver', as_version_from_string ver text = Ret (false, ver'))
  /\ (forall a b c,
        dot_separated 4 (copy_numeric (skip_whitespace text) 0) = [a; b; c] ->
        as_version_from_string ver text = Ret (true, mk_version a b c 0))
  /\ (forall a b c d,
        dot_separated 4 (copy_numeric (skip_whitespace text) 0) = [a; b; c; d] ->
        as_version_from_string ver text = Ret (true, mk_version a b c d)).
Proof.
  intros Hns. unfold as_version_from_string.
  destruct (sscanf_components _ ver Hns) as (rv & -> & Hnone & Hsome).
  cbn [bind].
  destruct (dot_separated 4 (copy_numeric (skip_whitespace text) 0))
    as [|a [|b [|c [|d ns]]]] eqn:E.
  - specialize (Hnone eq_refl).
    replace (rv <? 3) with true by (symmetry; apply Z.ltb_lt; lia).
    split; [eauto|]. split; intros; discriminate.
  - rewrite Hsome by discriminate.
    split; [eexists; reflexivity|]. split; intros; discriminate.
  - rewrite Hsome by discriminate.
    split; [eexists; reflexivity|]. split; intros; discriminate.
  - rewrite Hsome by discriminate.
    split; [cbn [length]; lia|].
    split; [|intros; discriminate].
    intros a' b' c' H. injection H as <- <- <-. reflexivity.
  - rewrite Hsome by discriminate.
    split; [cbn [length]; lia|].
    split; [intros; discriminate|].
    intros a' b' c' d' H. injection H as <- <- <- <- ->. reflexivity.
Qed.

(** C7.  The parser skips leading white space; it keeps the digits and dots
    at the head of the string and nothing behind the first other character;
    of numbers printed in decimal and joined by dots it accepts four as they
    are, three with [build] 0, and rejects two; and it parses the five
    strings of the spec as the spec says.  For every text: it is white
    space, then digits and dots, then a rest that starts with another
    character; the scratch buffer holds the digits and dots, 63 of them at
    most; of the up to four components of 16 bits read from the buffer, less
    than three (none, one or two) make the parse fail, exactly three give
    them with [build] 0, and four give the four. *)
Theorem version_from_string_spec :
  (forall ver ws str,
      all_chars skipped ws = true ->
      as_version_from_string ver (ws ++ str) = as_version_from_string ver str)
  /\ (forall ver d pre c suffix,
        numeric d = true -> all_chars numeric pre = true -> numeric c = false ->
        as_version_from_string ver (String d pre ++ String c suffix)
        = as_version_from_string ver (String d pre))
  /\ (forall ver a b c d,
        (a <= 65535)%N -> (b <= 65535)%N -> (c <= 65535)%N -> (d <= 65535)%N ->
        as_version_from_string ver (dotted [a; b; c; d])
          = Ret (true, mk_version a b c d)
        /\ as_version_from_string ver (dotted [a; b; c])
           = Ret (true, mk_version a b c 0)
        /\ as_version_from_string ver (dotted [a; b])
           = Ret (false, mk_version a b (patch ver) (build ver)))
  /\ (forall ver,
        as_version_from_string ver "7.1.0.2" = Ret (true, mk_version 7 1 0 2)
        /\ as_version_from_string ver "7.1.0.2-1-gabcdef"
           = Ret (true, mk_version 7 1 0 2)
        /\ as_version_from_string ver "7.1.0" = Ret (true, mk_version 7 1 0 0)
        /\ as_version_from_string ver "  7.1.0" = Ret (true, mk_version 7 1 0 0)
        /\ exists ver', as_version_from_string ver "7.1" = Ret (false, ver'))
  /\ (forall text, exists ws pre rest,
        text = (ws ++ pre ++ rest)%string
        /\ all_chars skipped ws = true /\ all_chars numeric pre = true
        /\ stops numeric rest /\ stops skipped (pre ++ rest))
  /\ (forall ver ws pre rest,
        all_chars skipped ws = true -> all_chars numeric pre = true ->
        stops numeric rest -> stops skipped (pre ++ rest) ->
        copy_numeric (skip_whitespace (ws ++ pre ++ rest)) 0 = substring 0 63 pre
        /\ (length (dot_separated 4 (substring 0 63 pre)) <= 4)%nat
        /\ (Forall (fun n => (n <= 65535)%N) (dot_separated 4 (substring 0 63 pre)) ->
            ((length (dot_separated 4 (substring 0 63 pre)) < 3)%nat ->
             exists ver',
               as_version_from_string ver (ws ++ pre ++ rest) = Ret (false, ver'))
            /\ (forall a b c,
                  dot_separated 4 (substring 0 63 pre) = [a; b; c] ->
                  as_version_from_string ver (ws ++ pre ++ rest)
                  = Ret (true, mk_version a b c 0))
            /\ (forall a b c d,
                  dot_separated 4 (substring 0 63 pre) = [a; b; c; d] ->
                  as_version_from_string ver (ws ++ pre ++ rest)
                  = Ret (true, mk_version a b c d)))).
Proof.
  split; [|split; [|split; [|split; [|split]]]].
  - intros ver ws str Hws. unfold as_version_from_string.
    rewrite skip_whitespace_app by exact Hws. reflexivity.
  - intros ver d pre c suffix Hd Hpre Hc. unfold as_version_from_string.
    change (String d pre ++ String c suffix)%string
      with (String d (pre ++ String c suffix)).
    rewrite !skip_whitespace_numeric by exact Hd.
    change (String d (pre ++ String c suffix))
      with (String d pre ++ String c suffix)%string.
    rewrite copy_numeric_stops; [reflexivity| |exact Hc].
    simpl. rewrite Hd, Hpre. reflexivity.
  - exact from_string_components.
  - intros ver. repeat split. eexists. reflexivity.
  - exact text_splits.
  - intros ver ws pre rest Hws Hpre Hrest Hstop.
    pose proof (buffer_of_text ws pre rest Hws Hpre Hrest Hstop) as Hbuf.
    split; [exact Hbuf|]. split; [apply dot_separated_length|].
    intros Hns. rewrite <- Hbuf in *.
    apply from_string_parsed, Hns.
Qed.

Lemma version_from_string_spec_witness :
  as_version_from_string stale_version ("  " ++ "7.1.0")
    = as_version_from_string stale_version "7.1.0"
  /\ as_version_from_string stale_version ("7.1.0.2" ++ "-1-gabcdef")
     = as_version_from_string stale_version "7.1.0.2"
  /\ as_version_from_string stale_version (dotted [7; 1; 0]%N)
     = Ret (true, mk_version 7 1 0 0)
  /\ as_version_from_string stale_version text_with_suffix
     = Ret (true, mk_version 7 1 0 0)
  /\ exists ver', as_version_from_string stale_version ("  " ++ "7." ++ " 1.0")
                  = Ret (false, ver').
Proof.
  destruct version_from_string_spec as (Hws & Hsuffix & Hdotted & _ & _ & Hparsed).
  split; [|split; [|split; [|split]]].
  - apply Hws. reflexivity.
  - apply (Hsuffix stale_version "7"%char ".1.0.2"%string "-"%char "1-gabcdef"%string);
      reflexivity.
  - apply (Hdotted stale_version 7 1 0 0)%N; vm_compute; discriminate.
  - destruct (Hparsed stale_version "  " "7.1.0" "-rc1"
                eq_refl eq_refl eq_refl eq_refl)%string as (_ & _ & H).
    destruct H as (_ & Hthree & _);
      [repeat constructor; vm_compute; discriminate|].
    apply Hthree. reflexivity.
  - destruct (Hparsed stale_version "  " "7." " 1.0"
                eq_refl eq_refl eq_refl eq_refl)%string as (_ & _ & H).
    destruct H as (Hfew & _);
      [repeat constructor; vm_compute; discriminate|].
    apply Hfew. vm_compute. lia.
Defined.

(** ** The comparison *)

Lemma Z_of_N_eqb (x y : N) : (Z.of_N x =? Z.of_N y) = (x =? y)%N.
Proof.
  destruct (N.eqb_spec x y) as [->|H].
  - apply Z.eqb_refl.
  - apply Z.eqb_neq. intros E. apply N2Z.inj in E. contradiction.
Qed.

Lemma first_difference_zero (xs ys : list Z) :
  length xs = length ys -> (first_difference xs ys = 0 <-> xs = ys).
Proof.
  revert ys. induction xs as [|x xs IH]; intros [|y ys] Hlen; try discriminate.
  - split; reflexivity.
  - simpl. injection Hlen as Hlen. destruct (x =? y) eqn:E; zbool.
    + subst y. rewrite (IH ys Hlen). split; [intros ->; reflexivity|].
      intros H. injection H as ->. reflexivity.
    + split; [lia|]. intros H. injection H as -> _. contradiction.
Qed.

Lemma first_difference_opp (xs ys : list Z) :
  first_difference ys xs = - first_difference xs ys.
Proof.
  revert ys. induction xs as [|x xs IH]; intros [|y ys]; try reflexivity.
  simpl. rewrite (Z.eqb_sym y x). destruct (x =? y); [apply IH|lia].
Qed.

Lemma first_difference_trans (xs ys zs : list Z) :
  first_difference xs ys < 0 -> first_difference ys zs < 0 ->
  first_difference xs zs < 0.
Proof.
  revert ys zs. induction xs as [|x xs IH]; intros [|y ys] [|z zs]; simpl; try lia.
  destruct (x =? y) eqn:Exy; destruct (y =? z) eqn:Eyz; destruct (x =? z) eqn:Exz;
    zbool; try lia.
  apply IH.
Qed.

Lemma compare_first_difference (ver1 ver2 : as_version) :
  as_version_compare ver1 ver2
  = first_difference (components ver1) (components ver2).
Proof.
  unfold as_version_compare, components. cbn [first_difference].
  rewrite !Z_of_N_eqb.
  destruct (major ver1 =? major ver2)%N; [|reflexivity].
  destruct (minor ver1 =? minor ver2)%N; [|reflexivity].
  destruct (patch ver1 =? patch ver2)%N; [|reflexivity].
  destruct (build ver1 =? build ver2)%N; reflexivity.
Qed.

Lemma components_inj (ver1 ver2 : as_version) :
  components ver1 = components ver2 <-> ver1 = ver2.
Proof.
  split; [|intros ->; reflexivity].
  destruct ver1, ver2. unfold components. cbn [major minor patch build].
  intros H. injection H as H1 H2 H3 H4.
  apply N2Z.inj in H1, H2, H3, H4. subst. reflexivity.
Qed.

(** C8.  [as_version_compare] is the lexicographic comparison of
    [(major, minor, patch, build)]: the difference of the first components
    that differ, and 0 exactly when the versions are equal; it is
    antisymmetric and transitive; and it orders the versions of the spec's
    examples as the spec says. *)
Theorem version_compare_spec :
  (forall ver1 ver2,
      as_version_compare ver1 ver2
      = first_difference (components ver1) (components ver2))
  /\ (forall ver1 ver2, as_version_compare ver1 ver2 = 0 <-> ver1 = ver2)
  /\ (forall ver1 ver2, as_version_compare ver2 ver1 = - as_version_compare ver1 ver2)
  /\ (forall ver1 ver2 ver3,
        as_version_compare ver1 ver2 < 0 -> as_version_compare ver2 ver3 < 0 ->
        as_version_compare ver1 ver3 < 0)
  /\ (forall ver,
        exists v7102 v7103 v7200 v7199 v1000,
          as_version_from_string ver "7.1.0.2" = Ret (true, v7102)
          /\ as_version_from_string ver "7.1.0.3" = Ret (true, v7103)
          /\ as_version_from_string ver "7.2.0.0" = Ret (true, v7200)
          /\ as_version_from_string ver "7.1.9.9" = Ret (true, v7199)
          /\ as_version_from_string ver "1.0.0.0" = Ret (true, v1000)
          /\ as_version_compare v7102 v7103 < 0
          /\ as_version_compare v7200 v7199 > 0
          /\ as_version_compare v1000 v1000 = 0).
Proof.
  split; [|split; [|split; [|split]]].
  - exact compare_first_difference.
  - intros ver1 ver2. rewrite compare_first_difference, <- components_inj.
    apply first_difference_zero. reflexivity.
  - intros ver1 ver2. rewrite !compare_first_difference. apply first_difference_opp.
  - intros ver1 ver2 ver3. rewrite !compare_first_difference.
    apply first_difference_trans.
  - intros ver. do 5 eexists. repeat split.
Qed.

Lemma version_compare_spec_witness :
  as_version_compare (mk_version 7 1 0 2) (mk_version 7 1 9 9) < 0
  /\ mk_version 1 0 0 0 = mk_version 1 0 0 0.
Proof.
  destruct version_compare_spec as (_ & Hzero & _ & Htrans & _).
  split.
  - apply (Htrans _ (mk_version 7 1 0 3)); reflexivity.
  - apply Hzero. reflexivity.
Defined.

(** ** What a failure leaves behind *)

(** [sscanf] assigns the components in their order: when it returns less
    than 3, it has assigned nothing, [major], or [major] and [minor]. *)
Lemma sscanf_below_three (buf : string) (ver ver' : as_version) (rv : Z) :
  sscanf_hu_dots [set_major; set_minor; set_patch; set_build] buf 0 ver
    = Ret (rv, ver') ->
  rv < 3 ->
  ver' = ver
  \/ (exists a, ver' = set_major a ver)
  \/ (exists a b, ver' = set_minor b (set_major a ver)).
Proof.
  cbn [sscanf_hu_dots]. change (0 =? 0) with true. cbv iota.
  change (0 + 1 =? 0) with false. change (0 + 1 + 1 =? 0) with false.
  change (0 + 1 + 1 + 1 =? 0) with false. cbv iota.
  intros H Hrv.
  repeat match type of H with
  | context [scan_hu ?s] => destruct (scan_hu s) as [? ?| | |]
  | context [match ?s with EmptyString => _ | String _ _ => _ end] =>
      destruct s as [|? ?]
  | context [if is_dot ?c then _ else _] => destruct (is_dot c)
  | Undefined = Ret _ => discriminate H
  end;
  injection H as <- <-; eauto; lia.
Qed.

(** C9 (amended).  A decoder call that fails leaves the vector and the
    element type of its caller as they were.  A parse that fails returns
    [false] with [patch] and [build] as they were; [major], or [major] and
    [minor], hold what [sscanf] assigned before it stopped. *)
Theorem failures_and_outputs :
  (forall host_big_endian bytes vector element_type status vector' element_type',
      as_ml_vector_deserialize host_big_endian bytes vector element_type
        = Ret (status, vector', element_type') ->
      status <> AEROSPIKE_OK ->
      vector' = vector /\ element_type' = element_type)
  /\ (forall ver str ver',
        as_version_from_string ver str = Ret (false, ver') ->
        (ver' = ver
         \/ (exists a, ver' = set_major a ver)
         \/ (exists a b, ver' = set_minor b (set_major a ver)))
        /\ patch ver' = patch ver /\ build ver' = build ver).
Proof.
  split.
  - intros hbe bytes vector element_type status vector' element_type' H Hs.
    eapply deserialize_failure in H; [|exact Hs]. tauto.
  - intros ver str ver'. unfold as_version_from_string.
    destruct (sscanf_hu_dots _ _ 0 ver) as [[rv ver1]|] eqn:E; [|discriminate].
    cbn [bind]. destruct (rv <? 3) eqn:Erv.
    + intros H. injection H as <-. zbool.
      pose proof (sscanf_below_three _ _ _ _ E Erv) as Hcases.
      split; [exact Hcases|].
      destruct Hcases as [->|[(a & ->)|(a & b & ->)]]; split; reflexivity.
    + destruct (rv =? 3); discriminate.
Qed.

Lemma failures_and_outputs_witness :
  (Some fresh_vector = Some fresh_vector /\ Some fresh_type = Some fresh_type)
  /\ (patch (mk_version 7 1 3 4) = patch stale_version
      /\ build (mk_version 7 1 3 4) = build stale_version).
Proof.
  destruct failures_and_outputs as [Hdecode Hparse].
  split.
  - apply (Hdecode false (Some (blob truncated_blob)) (Some fresh_vector)
             (Some fresh_type) AEROSPIKE_ERR_PARAM).
    + reflexivity.
    + discriminate.
  - apply (Hparse stale_version "7.1"%string). reflexivity.
Defined.

(** C9, as stated, fails: the parse of ["7.1"] returns [false] and has
    overwritten [major] and [minor] of the version it was given. *)
Lemma failed_parse_overwrites_components :
  as_version_from_string stale_version "7.1" = Ret (false, mk_version 7 1 3 4)
  /\ mk_version 7 1 3 4 <> stale_version.
Proof.
  split; [reflexivity|discriminate].
Qed.

(** ** The text of a version *)

Lemma substring_all (s : string) (n : nat) :
  (String.length s <= n)%nat -> substring 0 n s = s.
Proof.
  revert n. induction s as [|c s IH]; intros [|n] H; simpl in *; try reflexivity; try lia.
  rewrite IH by lia. reflexivity.
Qed.

Lemma version_text_dotted (ver : as_version) :
  version_text ver = dotted [major ver; minor ver; patch ver; build ver].
Proof. reflexivity. Qed.

(** A buffer that holds the text receives all of it. *)
Lemma to_string_fits (ver : as_version) (str : string) (size : Z) :
  Z.of_nat (String.length (version_text ver)) < size ->
  as_version_to_string ver str size = version_text ver.
Proof.
  intros Hsize. unfold as_version_to_string.
  destruct (size =? 0) eqn:E; [zbool; lia|].
  apply substring_all. lia.
Qed.

(** C10.  Into a buffer that holds the text, [as_version_to_string] writes
    the four components, in plain decimal without padding, joined by dots,
    whatever the version; and the text of the version parsed from
    ["7.1.0.2"] is ["7.1.0.2"]. *)
Theorem version_to_string_spec (ver : as_version) (str : string) (size : Z) :
  Z.of_nat (String.length (version_text ver)) < size ->
  as_version_to_string ver str size
    = (print_hu (major ver) ++ "." ++ print_hu (minor ver) ++ "."
       ++ print_hu (patch ver) ++ "." ++ print_hu (build ver))%string
  /\ plain_decimal (major ver) (print_hu (major ver))
  /\ plain_decimal (minor ver) (print_hu (minor ver))
  /\ plain_decimal (patch ver) (print_hu (patch ver))
  /\ plain_decimal (build ver) (print_hu (build ver))
  /\ (forall ver0, exists parsed,
        as_version_from_string ver0 "7.1.0.2" = Ret (true, parsed)
        /\ as_version_to_string parsed str 64 = "7.1.0.2"%string).
Proof.
  intros Hsize. split; [|repeat split; try apply print_hu_plain_decimal].
  - apply to_string_fits, Hsize.
  - intros ver0. eexists. split; reflexivity.
Qed.

Lemma version_to_string_spec_witness :
  as_version_to_string (mk_version 65535 10 0 200) "" 24 = "65535.10.0.200"%string.
Proof.
  apply (version_to_string_spec (mk_version 65535 10 0 200) "" 24).
  vm_compute. reflexivity.
Defined.

(** The text of a version of 16-bit components has at most 23 characters,
    and parses back to the version. *)
Lemma version_text_roundtrip (ver ver0 : as_version) :
  (major ver <= 65535)%N -> (minor ver <= 65535)%N ->
  (patch ver <= 65535)%N -> (build ver <= 65535)%N ->
  (String.length (version_text ver) <= 23)%nat
  /\ as_version_from_string ver0 (as_version_to_string ver "" 24) = Ret (true, ver).
Proof.
  intros Ha Hb Hc Hd.
  assert (Hlen : (String.length (version_text ver) <= 23)%nat).
  { rewrite version_text_dotted.
    pose proof (dotted_length [major ver; minor ver; patch ver; build ver]
                  ltac:(repeat constructor; assumption)) as H.
    cbn [length] in H. lia. }
  split; [exact Hlen|].
  rewrite to_string_fits by lia.
  destruct (from_string_components ver0 _ _ _ _ Ha Hb Hc Hd) as [H _].
  rewrite version_text_dotted, H. destruct ver; reflexivity.
Qed.

(** * Further properties of the code *)

(** ** The constructors *)

Lemma constructors_are_ml_vector_init width init :
  In (width, init) constructors ->
  init = ml_vector_init width /\ (width = 4 \/ width = 8).
Proof.
  unfold constructors. simpl.
  intros [H|[H|[H|[H|[]]]]]; injection H as <- <-; split; auto.
Qed.

Lemma ml_vector_init_copies (width : Z) (v0 : as_vector) (arr : list byte) (count : Z) :
  0 < width -> 1 <= count < 2 ^ 32 ->
  count * width <= Z.of_nat (length arr) ->
  ml_vector_init width (Some v0) (Some arr) count
    = Ret (AEROSPIKE_OK, Some (vector_of_array width count arr)).
Proof.
  intros Hw Hc Hfit. unfold ml_vector_init.
  destruct (count =? 0) eqn:E; [zbool; lia|].
  rewrite (append_loop_copies _ arr 0 width Hw ltac:(lia) (Z.to_nat count) 0 _ []);
    cbn [as_vector_init vec_list vec_size vec_item_size]; try lia; try reflexivity.
  - cbn [bind app]. unfold vector_of_array.
    rewrite Z2Nat.id, Z.mul_0_l, Z.add_0_l by lia.
    change (Z.to_nat 0) with 0%nat. change (skipn 0 arr) with arr. reflexivity.
Qed.

(** X1.  Each constructor, given a vector object, an array that holds at
    least [count] elements and [1 <= count], returns [AEROSPIKE_OK] and leaves
    in the vector a copy of the first [count] elements: [size] is [count],
    [item_size] the size of the element type. *)
Theorem constructor_copies_the_array width init (v0 : as_vector)
    (arr : list byte) (count : Z) :
  In (width, init) constructors ->
  1 <= count < 2 ^ 32 ->
  count * width <= Z.of_nat (length arr) ->
  init (Some v0) (Some arr) count
    = Ret (AEROSPIKE_OK,
           Some {| vec_list := Some (firstn (Z.to_nat (count * width)) arr);
                   vec_size := count; vec_item_size := width |})
  /\ vector_wf {| vec_list := Some (firstn (Z.to_nat (count * width)) arr);
                  vec_size := count; vec_item_size := width |}.
Proof.
  intros Hin Hc Hfit.
  destruct (constructors_are_ml_vector_init _ _ Hin) as [-> Hw].
  split.
  - apply ml_vector_init_copies; [lia|exact Hc|exact Hfit].
  - split; [cbn [vec_size]; lia|]. cbn [vec_list vec_size vec_item_size].
    rewrite length_firstn. nia.
Qed.

Lemma constructor_copies_the_array_witness :
  as_ml_vector_init_float32 (Some fresh_vector) (Some four_floats) 4
    = Ret (AEROSPIKE_OK,
           Some {| vec_list := Some four_floats; vec_size := 4; vec_item_size := 4 |}).
Proof.
  apply (constructor_copies_the_array 4 as_ml_vector_init_float32 fresh_vector
           four_floats 4).
  - left. reflexivity.
  - split; [lia|reflexivity].
  - vm_compute. discriminate.
Defined.

(** X2.  A constructor that returns does so with [AEROSPIKE_OK] or
    [AEROSPIKE_ERR_PARAM]; it returns [AEROSPIKE_ERR_PARAM] exactly when the
    vector or the array is absent or [count] is 0, and then the vector is as
    it was. *)
Theorem constructor_rejects_exactly width init (vector : option as_vector)
    (data : option (list byte)) (count : Z) (status : as_status)
    (out : option as_vector) :
  In (width, init) constructors ->
  init vector data count = Ret (status, out) ->
  (status = AEROSPIKE_OK \/ status = AEROSPIKE_ERR_PARAM)
  /\ (status = AEROSPIKE_ERR_PARAM
      <-> vector = None \/ data = None \/ count = 0)
  /\ (status = AEROSPIKE_ERR_PARAM -> out = vector).
Proof.
  intros Hin. destruct (constructors_are_ml_vector_init _ _ Hin) as [-> _].
  unfold ml_vector_init.
  destruct vector as [v0|]; [|intros H; injection H as <- <-; intuition].
  destruct data as [arr|]; [|intros H; injection H as <- <-; intuition].
  destruct (count =? 0) eqn:E; zbool; [intros H; injection H as <- <-; intuition|].
  destruct (append_loop _ _ _ _) as [v|]; [|discriminate].
  cbn [bind]. intros H. injection H as <- <-.
  split; [auto|]. split; [|discriminate].
  split; [discriminate|]. intros [H|[H|H]]; congruence.
Qed.

Lemma constructor_rejects_exactly_witness :
  (AEROSPIKE_ERR_PARAM = AEROSPIKE_OK \/ AEROSPIKE_ERR_PARAM = AEROSPIKE_ERR_PARAM)
  /\ (AEROSPIKE_ERR_PARAM = AEROSPIKE_ERR_PARAM
      <-> Some fresh_vector = None \/ @None (list byte) = None \/ 4 = 0)
  /\ (AEROSPIKE_ERR_PARAM = AEROSPIKE_ERR_PARAM -> Some fresh_vector = Some fresh_vector).
Proof.
  apply (constructor_rejects_exactly 8 as_ml_vector_init_float64
           (Some fresh_vector) None 4 AEROSPIKE_ERR_PARAM (Some fresh_vector)).
  - right. left. reflexivity.
  - reflexivity.
Defined.

(** ** The encoder, further *)

(** X3.  Whatever the encoder returns other than [AEROSPIKE_OK], the
    [as_bytes] of the caller is as it was; and it returns
    [AEROSPIKE_ERR_CLIENT] only when the arguments passed every check and
    [malloc] returned [NULL] for [total_size]. *)
Theorem serialize_failure_leaves_bytes (host_big_endian : bool)
    (malloc : Z -> option (list byte)) (vector : option as_vector)
    (t : as_ml_vector_element_type) (bytes : option as_bytes)
    (status : as_status) (out : option as_bytes) :
  as_ml_vector_serialize host_big_endian malloc vector t bytes = Ret (status, out) ->
  status <> AEROSPIKE_OK ->
  out = bytes
  /\ (status = AEROSPIKE_ERR_CLIENT ->
      exists v, vector = Some v
        /\ vec_size v <> 0
        /\ vec_item_size v = as_ml_vector_element_size t
        /\ as_ml_vector_element_size t <> 0
        /\ malloc (wrap32 (16 + wrap32 (vec_size v * as_ml_vector_element_size t)))
           = None).
Proof.
  unfold as_ml_vector_serialize. intros H Hs.
  match goal with
  | |- _ /\ ?Q =>
      assert (Hparam : forall r : run (as_status * option as_bytes),
                 r = Ret (AEROSPIKE_ERR_PARAM, bytes) -> r = Ret (status, out) ->
                 out = bytes /\ Q)
  end.
  { intros r -> E. injection E as <- <-. split; [reflexivity|discriminate]. }
  destruct vector as [v|]; [|destruct bytes; eapply Hparam; eauto].
  destruct bytes as [b0|]; [|eapply Hparam; eauto].
  destruct (vec_list v) as [l|]; [|eapply Hparam; eauto].
  destruct (vec_size v =? 0) eqn:E0; [eapply Hparam; eauto|].
  destruct (as_ml_vector_element_size t =? 0) eqn:E1; [eapply Hparam; eauto|].
  destruct (vec_item_size v =? as_ml_vector_element_size t) eqn:E2;
    [|eapply Hparam; eauto].
  cbn [negb] in H. cbv zeta in H. zbool.
  destruct (malloc _) as [buffer|] eqn:M.
  - exfalso.
    destruct (store32 _ buffer 0 _) as [b1|]; [cbn [bind] in H|discriminate].
    destruct (store32 _ b1 4 _) as [b2|]; [cbn [bind] in H|discriminate].
    destruct (store32 _ b2 8 _) as [b3|]; [cbn [bind] in H|discriminate].
    destruct (store32 _ b3 12 _) as [b4|]; [cbn [bind] in H|discriminate].
    destruct (slice l 0 _) as [data|]; [cbn [bind] in H|discriminate].
    destruct (store b4 16 data) as [b5|]; [cbn [bind] in H|discriminate].
    injection H as <- _. contradiction.
  - injection H as <- <-. split; [reflexivity|]. intros _.
    exists v. repeat split; assumption.
Qed.

Lemma serialize_failure_leaves_bytes_witness :
  Some fresh_bytes = Some fresh_bytes
  /\ (AEROSPIKE_ERR_CLIENT = AEROSPIKE_ERR_CLIENT ->
      exists v, Some vector_of_two_floats = Some v
        /\ vec_size v <> 0
        /\ vec_item_size v = as_ml_vector_element_size AS_ML_VECTOR_INT32
        /\ as_ml_vector_element_size AS_ML_VECTOR_INT32 <> 0
        /\ (fun _ : Z => @None (list byte))
             (wrap32 (16 + wrap32 (vec_size v
                                   * as_ml_vector_element_size AS_ML_VECTOR_INT32)))
           = None).
Proof.
  apply (serialize_failure_leaves_bytes true (fun _ => None)
           (Some vector_of_two_floats) AS_ML_VECTOR_INT32 (Some fresh_bytes)
           AEROSPIKE_ERR_CLIENT (Some fresh_bytes)).
  - reflexivity.
  - discriminate.
Defined.

Section EncoderLayout.

Variable host_big_endian : bool.
Variable malloc : Z -> option (list byte).
Hypothesis malloc_returns_the_size : malloc_sound malloc.

(** X4.  Where [16 + size * element_size] is below [2^32], a blob the
    encoder returns for a well-formed vector consists of the magic number,
    the version, [size] and the type tag, each most significant byte first
    on either host, then the item bytes of the vector as they are; its
    [size] and [capacity] are [16 + size * element_size] and it owns the
    buffer. *)
Theorem serialize_layout (v : as_vector) (t : as_ml_vector_element_type)
    (b0 out : as_bytes) (l : list byte) :
  vec_list v = Some l ->
  vector_wf v ->
  16 + vec_size v * as_ml_vector_element_size t < 2 ^ 32 ->
  as_ml_vector_serialize host_big_endian malloc (Some v) t (Some b0)
    = Ret (AEROSPIKE_OK, Some out) ->
  bytes_value out
    = Some (encode_be32 AS_ML_VECTOR_MAGIC_NUMBER ++ encode_be32 AS_ML_VECTOR_VERSION
            ++ encode_be32 (vec_size v) ++ encode_be32 t ++ l)
  /\ bytes_size out = 16 + vec_size v * as_ml_vector_element_size t
  /\ bytes_capacity out = bytes_size out
  /\ bytes_free out = true
  /\ Z.of_nat (length l) = vec_size v * as_ml_vector_element_size t.
Proof.
  intros Hl [Hsize Hlen] Hfit Hser. rewrite Hl in Hlen.
  assert (Hcond : vec_size v <> 0 /\ as_ml_vector_element_size t <> 0
                  /\ vec_item_size v = as_ml_vector_element_size t).
  { destruct (Z.eq_dec (vec_size v) 0) as [E|E].
    { rewrite serialize_rejects in Hser by (left; right; exact E). discriminate. }
    destruct (Z.eq_dec (as_ml_vector_element_size t) 0) as [E'|E'].
    { rewrite serialize_rejects in Hser by (right; left; exact E'). discriminate. }
    destruct (Z.eq_dec (vec_item_size v) (as_ml_vector_element_size t)) as [E''|E''].
    { auto. }
    rewrite serialize_rejects in Hser by (right; right; eauto). discriminate. }
  destruct Hcond as (Hnz & Hes & Hitem).
  rewrite (serialize_in_range host_big_endian malloc malloc_returns_the_size
             v t b0 l Hl Hlen) in Hser by (assumption || lia).
  destruct (malloc _); [|discriminate].
  assert (Hout : out = blob (header (vec_size v) t ++ l))
    by (injection Hser; intros <-; reflexivity).
  subst out. unfold blob, as_bytes_init_wrap.
  cbn [bytes_value bytes_size bytes_capacity bytes_free].
  rewrite length_app, header_length, <- Hitem.
  unfold header. rewrite <- !app_assoc.
  repeat split; try reflexivity; lia.
Qed.

(** X5.  A well-formed vector that holds at least one item, encoded under a
    type whose size is its item size, with [16 + size * element_size] below
    [2^32] and [malloc] succeeding, gives [AEROSPIKE_OK]; and the blob
    decodes to the same type tag, the same number of items and the same item
    bytes. *)
Theorem roundtrip_below_4GiB (v : as_vector) (t : as_ml_vector_element_type)
    (b0 : as_bytes) (l : list byte) (v0 : as_vector)
    (t0 : as_ml_vector_element_type) :
  vec_list v = Some l ->
  vector_wf v ->
  1 <= vec_size v ->
  as_ml_vector_element_size t <> 0 ->
  vec_item_size v = as_ml_vector_element_size t ->
  16 + vec_size v * as_ml_vector_element_size t < 2 ^ 32 ->
  malloc (16 + vec_size v * as_ml_vector_element_size t) <> None ->
  exists out,
    as_ml_vector_serialize host_big_endian malloc (Some v) t (Some b0)
      = Ret (AEROSPIKE_OK, Some out)
    /\ as_ml_vector_deserialize host_big_endian (Some out) (Some v0) (Some t0)
       = Ret (AEROSPIKE_OK, Some v, Some t).
Proof.
  intros Hl Hwf Hsize Hes Hitem Hfit Hmalloc.
  pose proof Hwf as [Hrange Hlen]. rewrite Hl in Hlen.
  pose proof (serialize_in_range host_big_endian malloc malloc_returns_the_size
                v t b0 l Hl Hlen ltac:(lia) Hes Hitem Hfit) as Hser.
  destruct (malloc _) as [buffer|]; [|contradiction].
  eexists. split; [exact Hser|].
  rewrite (roundtrip_in_range host_big_endian malloc malloc_returns_the_size
             v t b0 _ l v0 t0 Hl Hwf Hfit Hser).
  destruct v as [vl vs vi]. cbn [vec_list vec_size vec_item_size] in *.
  subst. reflexivity.
Qed.

End EncoderLayout.

Lemma serialize_layout_witness :
  bytes_value (blob (header 2 AS_ML_VECTOR_FLOAT32 ++ two_floats))
    = Some (encode_be32 AS_ML_VECTOR_MAGIC_NUMBER ++ encode_be32 AS_ML_VECTOR_VERSION
            ++ encode_be32 2 ++ encode_be32 AS_ML_VECTOR_FLOAT32 ++ two_floats)
  /\ bytes_size (blob (header 2 AS_ML_VECTOR_FLOAT32 ++ two_floats)) = 24.
Proof.
  destruct (serialize_layout false malloc_zeroed malloc_zeroed_sound
              vector_of_two_floats AS_ML_VECTOR_FLOAT32 fresh_bytes
              (blob (header 2 AS_ML_VECTOR_FLOAT32 ++ two_floats)) two_floats)
    as (Hvalue & Hsize & _).
  - reflexivity.
  - split; [split; [discriminate|reflexivity]|reflexivity].
  - reflexivity.
  - reflexivity.
  - split; [exact Hvalue|exact Hsize].
Defined.

Lemma roundtrip_below_4GiB_witness :
  exists out,
    as_ml_vector_serialize true malloc_zeroed (Some vector_of_two_floats)
      AS_ML_VECTOR_INT32 (Some fresh_bytes)
      = Ret (AEROSPIKE_OK, Some out)
    /\ as_ml_vector_deserialize true (Some out) (Some fresh_vector) (Some fresh_type)
       = Ret (AEROSPIKE_OK, Some vector_of_two_floats, Some AS_ML_VECTOR_INT32).
Proof.
  apply (roundtrip_below_4GiB true malloc_zeroed malloc_zeroed_sound
           vector_of_two_floats AS_ML_VECTOR_INT32 fresh_bytes two_floats).
  - reflexivity.
  - split; [split; [discriminate|reflexivity]|reflexivity].
  - discriminate.
  - discriminate.
  - reflexivity.
  - reflexivity.
  - discriminate.
Defined.

(** ** The decoder, further *)

Section DecoderInRange.

Variable host_big_endian : bool.

(** The decoder on a blob that passes its checks without a wrap. *)
Lemma deserialize_in_range (p : list byte) (v0 : as_vector)
    (t0 : as_ml_vector_element_type) :
  let element_size := as_ml_vector_element_size (blob_type p) in
  blob_magic p = AS_ML_VECTOR_MAGIC_NUMBER ->
  blob_version p = AS_ML_VECTOR_VERSION ->
  element_size <> 0 ->
  Z.of_nat (length p) = 16 + blob_count p * element_size ->
  16 + blob_count p * element_size < 2 ^ 32 ->
  as_ml_vector_deserialize host_big_endian (Some (blob p)) (Some v0) (Some t0)
    = Ret (AEROSPIKE_OK,
           Some {| vec_list := Some (skipn 16 p); vec_size := blob_count p;
                   vec_item_size := element_size |},
           Some (blob_type p)).
Proof.
  intros es Hm Hv Hes Hlen Hfit.
  pose proof (header_field_range p 8) as Hc. fold (blob_count p) in Hc.
  assert (Hpos : 0 < es)
    by (destruct (element_size_cases (blob_type p)) as [[? _]|[[? _]|[? _]]];
        unfold es in *; lia).
  rewrite (deserialize_checks host_big_endian (blob p) p);
    [|reflexivity
     |change (bytes_size (blob p)) with (Z.of_nat (length p)); fold es in Hlen; nia
     |fold es in Hlen; nia].
  cbv zeta. fold es. rewrite Hm, Hv, !Z.eqb_refl. cbn [negb].
  destruct (es =? 0) eqn:E; [zbool; contradiction|].
  change (bytes_size (blob p)) with (Z.of_nat (length p)).
  rewrite (wrap32_small (_ * _)) by nia. rewrite (wrap32_small (16 + _)) by nia.
  fold es in Hlen. rewrite Hlen, Z.eqb_refl. cbn [negb].
  rewrite (append_loop_copies _ p 16 es Hpos ltac:(lia)
             (Z.to_nat (blob_count p)) 0 _ []);
    cbn [as_vector_init vec_list vec_size vec_item_size];
    try lia; try reflexivity.
  - cbn [bind app]. rewrite Z2Nat.id, Z.mul_0_l, Z.add_0_r, Z.add_0_l by lia.
    change (Z.to_nat 16) with 16%nat.
    rewrite firstn_all2 by (rewrite length_skipn; lia). reflexivity.
  - intros j Hj. rewrite wrap32_small by nia. reflexivity.
Qed.

(** X6.  Where [16 + count * element_size], read off the header, is below
    [2^32], the decoder accepts a blob exactly when it holds at least 16
    bytes, starts with the magic number and the version, carries one of the
    four type tags and is [16 + count * element_size] bytes long; the vector
    it returns then holds the bytes behind the header, [count] as its size
    and the size of the element type as its item size, and the element type
    is the tag. *)
Theorem deserialize_accepts_exactly (p : list byte) (v0 : as_vector)
    (t0 : as_ml_vector_element_type) :
  let element_size := as_ml_vector_element_size (blob_type p) in
  16 + blob_count p * element_size < 2 ^ 32 ->
  ((exists vector' element_type',
       as_ml_vector_deserialize host_big_endian (Some (blob p)) (Some v0) (Some t0)
         = Ret (AEROSPIKE_OK, vector', element_type'))
   <-> (blob_magic p = AS_ML_VECTOR_MAGIC_NUMBER
        /\ blob_version p = AS_ML_VECTOR_VERSION
        /\ 1 <= blob_type p <= 4
        /\ Z.of_nat (length p) = 16 + blob_count p * element_size))
  /\ (forall vector' element_type',
        as_ml_vector_deserialize host_big_endian (Some (blob p)) (Some v0) (Some t0)
          = Ret (AEROSPIKE_OK, vector', element_type') ->
        vector' = Some {| vec_list := Some (skipn 16 p); vec_size := blob_count p;
                          vec_item_size := element_size |}
        /\ element_type' = Some (blob_type p)).
Proof.
  intros es Hfit.
  pose proof (header_field_range p 8) as Hc. fold (blob_count p) in Hc.
  assert (Hinv : forall vector' element_type',
      as_ml_vector_deserialize host_big_endian (Some (blob p)) (Some v0) (Some t0)
        = Ret (AEROSPIKE_OK, vector', element_type') ->
      blob_magic p = AS_ML_VECTOR_MAGIC_NUMBER
      /\ blob_version p = AS_ML_VECTOR_VERSION
      /\ es <> 0
      /\ Z.of_nat (length p) = 16 + blob_count p * es).
  { intros v t H. apply deserialize_accepts_inv in H.
    destruct H as (_ & Hm & Hv & Hes & Hlen & _). fold es in Hes, Hlen.
    assert (0 < es)
      by (destruct (element_size_cases (blob_type p)) as [[? _]|[[? _]|[? _]]];
          unfold es in *; lia).
    rewrite (wrap32_small (_ * _)) in Hlen by nia.
    rewrite wrap32_small in Hlen by nia. auto. }
  assert (Htag : es <> 0 <-> 1 <= blob_type p <= 4).
  { unfold es. destruct (element_size_cases (blob_type p))
      as [[-> [-> | ->]]|[[-> [-> | ->]]|[-> H]]];
      unfold AS_ML_VECTOR_FLOAT32, AS_ML_VECTOR_INT32, AS_ML_VECTOR_FLOAT64,
        AS_ML_VECTOR_INT64 in *; lia. }
  split; [split|].
  - intros (v & t & H). destruct (Hinv v t H) as (Hm & Hv & Hes & Hlen).
    rewrite <- Htag. auto.
  - intros (Hm & Hv & Ht & Hlen). apply Htag in Ht.
    eexists _, _. apply deserialize_in_range; assumption.
  - intros v t H. destruct (Hinv v t H) as (Hm & Hv & Hes & Hlen).
    rewrite deserialize_in_range in H by assumption.
    injection H as <- <-. split; reflexivity.
Qed.

(** X7.  A blob of at least 16 bytes whose type tag is none of 1, 2, 3, 4
    is rejected with [AEROSPIKE_ERR_PARAM], outputs untouched, whatever its
    other fields and its length. *)
Theorem deserialize_rejects_unknown_type (b : as_bytes) (p : list byte)
    (vector : option as_vector) (element_type : option as_ml_vector_element_type) :
  bytes_value b = Some p ->
  16 <= bytes_size b -> 16 <= Z.of_nat (length p) ->
  ~ (1 <= blob_type p <= 4) ->
  as_ml_vector_deserialize host_big_endian (Some b) vector element_type
    = Ret (AEROSPIKE_ERR_PARAM, vector, element_type).
Proof.
  intros Hp Hsize Hlen Htag.
  destruct vector as [v0|]; [|apply deserialize_null_output; auto].
  destruct element_type as [t0|]; [|apply deserialize_null_output; auto].
  rewrite (deserialize_checks host_big_endian b p) by assumption. cbv zeta.
  destruct (negb (blob_magic p =? _)); [reflexivity|].
  destruct (negb (blob_version p =? _)); [reflexivity|].
  destruct (as_ml_vector_element_size (blob_type p) =? 0) eqn:E; [reflexivity|].
  zbool. exfalso. apply Htag.
  destruct (element_size_cases (blob_type p))
    as [[_ [-> | ->]]|[[_ [-> | ->]]|[H _]]];
    unfold AS_ML_VECTOR_FLOAT32, AS_ML_VECTOR_INT32, AS_ML_VECTOR_FLOAT64,
      AS_ML_VECTOR_INT64; lia.
Qed.

End DecoderInRange.

Lemma deserialize_accepts_exactly_witness :
  (exists vector' element_type',
      as_ml_vector_deserialize false (Some (blob blob_of_one_float))
        (Some fresh_vector) (Some fresh_type)
      = Ret (AEROSPIKE_OK, vector', element_type'))
  /\ ~ (exists vector' element_type',
          as_ml_vector_deserialize false (Some (blob truncated_blob))
            (Some fresh_vector) (Some fresh_type)
          = Ret (AEROSPIKE_OK, vector', element_type')).
Proof.
  split.
  - apply (deserialize_accepts_exactly false blob_of_one_float fresh_vector
             fresh_type eq_refl).
    repeat split; vm_compute; congruence.
  - intros H.
    apply (deserialize_accepts_exactly false truncated_blob fresh_vector
             fresh_type eq_refl) in H.
    destruct H as (_ & _ & _ & H). vm_compute in H. discriminate.
Defined.

Lemma deserialize_rejects_unknown_type_witness :
  as_ml_vector_deserialize true (Some (blob blob_of_unknown_type))
    (Some fresh_vector) (Some fresh_type)
  = Ret (AEROSPIKE_ERR_PARAM, Some fresh_vector, Some fresh_type).
Proof.
  apply (deserialize_rejects_unknown_type true (blob blob_of_unknown_type)
           blob_of_unknown_type).
  - reflexivity.
  - vm_compute. discriminate.
  - vm_compute. discriminate.
  - vm_compute. intros [_ H]. apply H. reflexivity.
Defined.

(** ** Decoding, then encoding *)

Lemma header_rebuild (p : list byte) :
  16 <= Z.of_nat (length p) ->
  blob_magic p = AS_ML_VECTOR_MAGIC_NUMBER ->
  blob_version p = AS_ML_VECTOR_VERSION ->
  header (blob_count p) (blob_type p) ++ skipn 16 p = p.
Proof.
  intros Hlen.
  do 16 (destruct p as [|? p]; [simpl in Hlen; lia|]).
  unfold blob_magic, blob_version, blob_count, blob_type, header_field, header.
  intros <- <-.
  change (Z.to_nat 0) with 0%nat. change (Z.to_nat 4) with 4%nat.
  change (Z.to_nat 8) with 8%nat. change (Z.to_nat 12) with 12%nat.
  cbn [skipn firstn]. rewrite !encode_decode_be32. reflexivity.
Qed.

Section DecodeEncode.

Variable host_big_endian : bool.
Variable malloc : Z -> option (list byte).
Hypothesis malloc_returns_the_size : malloc_sound malloc.

(** X8.  A blob the decoder accepts, with at least one element and
    [16 + count * element_size] below [2^32], is what the encoder returns
    for the decoded vector and element type, byte for byte, when [malloc]
    succeeds. *)
Theorem deserialize_then_serialize (p : list byte) (v0 v : as_vector)
    (t0 t : as_ml_vector_element_type) (b0 : as_bytes) :
  as_ml_vector_deserialize host_big_endian (Some (blob p)) (Some v0) (Some t0)
    = Ret (AEROSPIKE_OK, Some v, Some t) ->
  1 <= blob_count p ->
  16 + blob_count p * as_ml_vector_element_size (blob_type p) < 2 ^ 32 ->
  malloc (Z.of_nat (length p)) <> None ->
  as_ml_vector_serialize host_big_endian malloc (Some v) t (Some b0)
    = Ret (AEROSPIKE_OK, Some (blob p)).
Proof.
  intros H Hcount Hfit Hmalloc.
  pose proof (deserialize_accepts_inv host_big_endian p v0 t0 _ _ H)
    as (Hlong & Hm & Hv & Hes & Hlen & _).
  cbv zeta in Hes, Hlen.
  assert (Hpos : 0 < as_ml_vector_element_size (blob_type p))
    by (destruct (element_size_cases (blob_type p)) as [[? _]|[[? _]|[? _]]]; lia).
  rewrite (wrap32_small (_ * _)) in Hlen by nia.
  rewrite wrap32_small in Hlen by nia.
  rewrite deserialize_in_range in H by assumption.
  injection H as <- <-.
  rewrite (serialize_in_range host_big_endian malloc malloc_returns_the_size
             _ (blob_type p) b0 (skipn 16 p));
    cbn [vec_list vec_size vec_item_size];
    try reflexivity; try assumption; try lia.
  - rewrite <- Hlen. destruct (malloc _); [|contradiction].
    rewrite header_rebuild by assumption. reflexivity.
  - rewrite length_skipn. lia.
Qed.

End DecodeEncode.

Lemma deserialize_then_serialize_witness :
  as_ml_vector_serialize false malloc_zeroed
    (Some {| vec_list := Some [x00; x00; x80; x3f]; vec_size := 1; vec_item_size := 4 |})
    AS_ML_VECTOR_FLOAT32 (Some fresh_bytes)
  = Ret (AEROSPIKE_OK, Some (blob blob_of_one_float)).
Proof.
  apply (deserialize_then_serialize false malloc_zeroed malloc_zeroed_sound
           blob_of_one_float fresh_vector _ fresh_type).
  - reflexivity.
  - vm_compute. discriminate.
  - reflexivity.
  - discriminate.
Defined.

(** ** Byte order of the host *)

Lemma load32_swapped (host_big_endian : bool) (p : list byte) (off : Z) :
  match load32 host_big_endian p off, load32 true p off with
  | Ret w, Ret w' =>
      cf_swap_from_be32 host_big_endian w = cf_swap_from_be32 true w'
  | Undefined, Undefined => True
  | _, _ => False
  end.
Proof.
  unfold load32. destruct (slice p off 4) as [bs|] eqn:E; cbn [bind]; [|exact I].
  apply slice_length in E.
  rewrite !load_swapped_is_big_endian by lia. reflexivity.
Qed.

(** X9.  The encoder and the decoder do the same on a little-endian and on
    a big-endian host: same status, same blob bytes, same vector, for the
    same arguments. *)
Theorem codec_ignores_host_byte_order (host_big_endian : bool)
    (malloc : Z -> option (list byte)) :
  (forall vector t bytes,
      as_ml_vector_serialize host_big_endian malloc vector t bytes
      = as_ml_vector_serialize true malloc vector t bytes)
  /\ (forall bytes vector element_type,
        as_ml_vector_deserialize host_big_endian bytes vector element_type
        = as_ml_vector_deserialize true bytes vector element_type).
Proof.
  split.
  - intros vector t bytes. unfold as_ml_vector_serialize, store32.
    destruct vector as [v|]; [|reflexivity].
    destruct bytes as [b0|]; [|reflexivity].
    destruct (vec_list v) as [l|]; [|reflexivity].
    rewrite !store_swapped_is_big_endian. reflexivity.
  - intros bytes vector element_type. unfold as_ml_vector_deserialize.
    destruct bytes as [b|]; [|reflexivity].
    destruct vector as [v0|]; [|reflexivity].
    destruct element_type as [t0|]; [|reflexivity].
    destruct (bytes_value b) as [p|]; [|reflexivity].
    destruct (bytes_size b <? 16); [reflexivity|].
    pose proof (load32_swapped host_big_endian p 0) as H0.
    destruct (load32 host_big_endian p 0), (load32 true p 0);
      try contradiction; [|reflexivity].
    cbn [bind]. rewrite H0. destruct (negb _); [reflexivity|].
    pose proof (load32_swapped host_big_endian p 4) as H1.
    destruct (load32 host_big_endian p 4), (load32 true p 4);
      try contradiction; [|reflexivity].
    cbn [bind]. rewrite H1. destruct (negb _); [reflexivity|].
    pose proof (load32_swapped host_big_endian p 8) as H2.
    destruct (load32 host_big_endian p 8), (load32 true p 8);
      try contradiction; [|reflexivity].
    cbn [bind].
    pose proof (load32_swapped host_big_endian p 12) as H3.
    destruct (load32 host_big_endian p 12), (load32 true p 12);
      try contradiction; [|reflexivity].
    cbn [bind]. rewrite H2, H3. reflexivity.
Qed.

(** ** From an array to a blob and back *)

Section ArrayToBlob.

Variable host_big_endian : bool.
Variable malloc : Z -> option (list byte).
Hypothesis malloc_returns_the_size : malloc_sound malloc.

(** X10.  A vector that a constructor built from [count] elements is encoded
    under every element type of the same size (so a [float32] vector is
    accepted as [int32] and tagged so), and the blob decodes to that vector
    and that type; under an element type of another size the encoder
    rejects it with [AEROSPIKE_ERR_PARAM]. *)
Theorem constructor_then_codec width init (arr : list byte) (count : Z)
    (t : as_ml_vector_element_type) (v0 v1 : as_vector) (b0 : as_bytes)
    (t1 : as_ml_vector_element_type) :
  In (width, init) constructors ->
  1 <= count ->
  16 + count * width < 2 ^ 32 ->
  count * width <= Z.of_nat (length arr) ->
  malloc (16 + count * width) <> None ->
  exists v,
    init (Some v0) (Some arr) count = Ret (AEROSPIKE_OK, Some v)
    /\ (as_ml_vector_element_size t = width ->
        exists out,
          as_ml_vector_serialize host_big_endian malloc (Some v) t (Some b0)
            = Ret (AEROSPIKE_OK, Some out)
          /\ bytes_value out
             = Some (header count t ++ firstn (Z.to_nat (count * width)) arr)
          /\ as_ml_vector_deserialize host_big_endian (Some out) (Some v1) (Some t1)
             = Ret (AEROSPIKE_OK, Some v, Some t))
    /\ (as_ml_vector_element_size t <> width ->
        as_ml_vector_serialize host_big_endian malloc (Some v) t (Some b0)
          = Ret (AEROSPIKE_ERR_PARAM, Some b0)).
Proof.
  intros Hin Hcount Hfit Harr Hmalloc.
  destruct (constructors_are_ml_vector_init _ _ Hin) as [-> Hw].
  exists (vector_of_array width count arr).
  split; [apply ml_vector_init_copies; lia|].
  assert (Hlen : Z.of_nat (length (firstn (Z.to_nat (count * width)) arr))
                 = count * width) by (rewrite length_firstn; nia).
  split.
  - intros Hes.
    pose proof (serialize_in_range host_big_endian malloc malloc_returns_the_size
                  (vector_of_array width count arr) t b0 _ eq_refl Hlen
                  ltac:(cbn [vector_of_array vec_size]; lia)
                  ltac:(lia) ltac:(symmetry; exact Hes)
                  ltac:(cbn [vector_of_array vec_size]; lia)) as Hser.
    cbn [vector_of_array vec_size] in Hser. rewrite Hes in Hser.
    destruct (malloc _); [|contradiction].
    eexists. split; [exact Hser|]. split; [reflexivity|].
    rewrite (roundtrip_in_range host_big_endian malloc malloc_returns_the_size
               (vector_of_array width count arr) t b0 _ _ v1 t1 eq_refl);
      [unfold vector_of_array; cbn [vec_size]; rewrite Hes; reflexivity
      |split; [cbn [vector_of_array vec_size]; lia|exact Hlen]
      |cbn [vector_of_array vec_size]; lia
      |exact Hser].
  - intros Hes. apply serialize_rejects. right. right.
    exists (vector_of_array width count arr). split; [reflexivity|].
    cbn [vector_of_array vec_item_size]. congruence.
Qed.

End ArrayToBlob.

Lemma constructor_then_codec_witness :
  exists v,
    as_ml_vector_init_float32 (Some fresh_vector) (Some four_floats) 4
      = Ret (AEROSPIKE_OK, Some v)
    /\ (exists out,
          as_ml_vector_serialize false malloc_zeroed (Some v) AS_ML_VECTOR_FLOAT32
            (Some fresh_bytes)
            = Ret (AEROSPIKE_OK, Some out)
          /\ bytes_value out = Some (header 4 AS_ML_VECTOR_FLOAT32 ++ four_floats)
          /\ as_ml_vector_deserialize false (Some out) (Some fresh_vector)
               (Some fresh_type)
             = Ret (AEROSPIKE_OK, Some v, Some AS_ML_VECTOR_FLOAT32)).
Proof.
  destruct (constructor_then_codec false malloc_zeroed malloc_zeroed_sound
              4 as_ml_vector_init_float32 four_floats 4 AS_ML_VECTOR_FLOAT32
              fresh_vector fresh_vector fresh_bytes fresh_type)
    as (v & Hinit & Hok & _).
  - left. reflexivity.
  - discriminate.
  - reflexivity.
  - vm_compute. discriminate.
  - discriminate.
  - exists v. split; [exact Hinit|]. apply Hok. reflexivity.
Defined.

(** ** The version utility, further *)

(** X11.  The text of a version of 16-bit components has at most 23
    characters; written into a buffer of 24 bytes or more and parsed again,
    whatever the version object held before, it gives the version back. *)
Theorem version_text_parses_back (ver ver0 : as_version) (str : string) (size : Z) :
  version_wf ver -> 24 <= size ->
  (String.length (version_text ver) <= 23)%nat
  /\ as_version_to_string ver str size = version_text ver
  /\ as_version_from_string ver0 (as_version_to_string ver str size)
     = Ret (true, ver).
Proof.
  intros (Ha & Hb & Hc & Hd) Hsize.
  assert (Hlen : (String.length (version_text ver) <= 23)%nat).
  { rewrite version_text_dotted.
    pose proof (dotted_length [major ver; minor ver; patch ver; build ver]
                  ltac:(repeat constructor; assumption)) as H.
    cbn [length] in H. lia. }
  split; [exact Hlen|].
  rewrite to_string_fits by lia. split; [reflexivity|].
  destruct (from_string_components ver0 _ _ _ _ Ha Hb Hc Hd) as [H _].
  rewrite version_text_dotted, H. destruct ver; reflexivity.
Qed.

Lemma version_text_parses_back_witness :
  as_version_from_string stale_version
    (as_version_to_string (mk_version 65535 0 12 345) "" 24)
  = Ret (true, mk_version 65535 0 12 345).
Proof.
  apply (version_text_parses_back (mk_version 65535 0 12 345) stale_version "" 24).
  - repeat split; vm_compute; discriminate.
  - vm_compute. discriminate.
Defined.

Lemma substring_length (s : string) (n : nat) :
  String.length (substring 0 n s) = Nat.min n (String.length s).
Proof.
  revert n. induction s as [|c s IH]; intros [|n]; simpl; try reflexivity.
  rewrite IH. reflexivity.
Qed.

Lemma substring_prefix (s : string) (n : nat) :
  exists rest, s = (substring 0 n s ++ rest)%string.
Proof.
  revert n. induction s as [|c s IH]; intros [|n]; simpl.
  - exists EmptyString. reflexivity.
  - exists EmptyString. reflexivity.
  - exists (String c s). reflexivity.
  - destruct (IH n) as (rest & H). exists rest. f_equal. exact H.
Qed.

(** X12.  [as_version_to_string] writes at most [size - 1] characters: what
    the buffer holds is the text of the version cut to [size - 1]
    characters, and a buffer of size 0 is left as it was. *)
Theorem version_to_string_bounded (ver : as_version) (str : string) (size : Z) :
  0 <= size ->
  (size = 0 -> as_version_to_string ver str size = str)
  /\ (0 < size ->
      Z.of_nat (String.length (as_version_to_string ver str size))
        = Z.min (size - 1) (Z.of_nat (String.length (version_text ver)))
      /\ exists rest,
          version_text ver = (as_version_to_string ver str size ++ rest)%string).
Proof.
  intros Hsize. unfold as_version_to_string. split.
  - intros ->. reflexivity.
  - intros Hpos. destruct (size =? 0) eqn:E; [zbool; lia|]. split.
    + rewrite substring_length. lia.
    + apply substring_prefix.
Qed.

Lemma version_to_string_bounded_witness :
  Z.of_nat (String.length (as_version_to_string (mk_version 7 1 0 2) "" 4))
    = Z.min (4 - 1) (Z.of_nat (String.length (version_text (mk_version 7 1 0 2))))
  /\ as_version_to_string (mk_version 7 1 0 2) "" 4 = "7.1"%string.
Proof.
  destruct (version_to_string_bounded (mk_version 7 1 0 2) "" 4) as [_ H].
  - discriminate.
  - destruct H as [Hlen _]; [reflexivity|]. split; [exact Hlen|reflexivity].
Defined.

Lemma copy_numeric_bounded (str : string) (n : Z) :
  0 <= n <= 63 ->
  Z.of_nat (String.length (copy_numeric str n)) <= 63 - n
  /\ all_chars numeric (copy_numeric str n) = true.
Proof.
  revert n. induction str as [|c str IH]; intros n Hn;
    [split; [cbn [copy_numeric String.length]; lia|reflexivity]|].
  cbn [copy_numeric]. destruct (negb (is_nul c) && (n <? 64 - 1)) eqn:E;
    [|split; [cbn [String.length]; lia|reflexivity]].
  apply andb_prop in E. destruct E as [_ E]. zbool.
  fold (numeric c). destruct (numeric c) eqn:Ec;
    [|split; [cbn [String.length]; lia|reflexivity]].
  destruct (IH (n + 1) ltac:(lia)) as [Hlen Hall].
  cbn [String.length all_chars]. rewrite Ec, Hall. split; [lia|reflexivity].
Qed.

(** X13.  The scratch buffer never receives more than 63 characters, all of
    them digits or dots, and the result of the parse is the result of the
    parse of the buffer: nothing behind the 63rd numeric character, and
    nothing behind the first other character, is looked at. *)
Theorem version_parse_reads_the_buffer (ver : as_version) (str : string) :
  let buf := copy_numeric (skip_whitespace str) 0 in
  (String.length buf <= 63)%nat
  /\ all_chars numeric buf = true
  /\ as_version_from_string ver str = as_version_from_string ver buf.
Proof.
  intros buf.
  destruct (copy_numeric_bounded (skip_whitespace str) 0 ltac:(lia)) as [Hlen Hall].
  fold buf in Hlen, Hall. split; [lia|]. split; [exact Hall|].
  unfold as_version_from_string. fold buf.
  rewrite (buffer_of_numeric buf Hall) by lia. reflexivity.
Qed.

Lemma copy_numeric_full (pre rest : string) :
  all_chars numeric pre = true ->
  forall n, 0 <= n -> n + Z.of_nat (String.length pre) = 63 ->
  copy_numeric (pre ++ rest) n = pre.
Proof.
  induction pre as [|c pre IH]; intros H n Hn Hlen.
  - cbn [String.length] in Hlen. cbn [append].
    destruct rest as [|c rest]; [reflexivity|]. cbn [copy_numeric].
    destruct (n <? 64 - 1) eqn:E; [zbool; lia|].
    rewrite andb_false_r. reflexivity.
  - simpl in H. apply andb_prop in H. destruct H as [Hc Hpre].
    cbn [String.length] in Hlen. cbn [append copy_numeric].
    fold (numeric c). rewrite Hc.
    destruct (numeric_not_skipped c Hc) as [_ ->].
    destruct (n <? 64 - 1) eqn:E; [|zbool; lia].
    cbn [negb andb]. rewrite IH by (assumption || lia). reflexivity.
Qed.

(** X14.  Of a string that starts with 63 digits and dots the parser reads
    those 63 characters alone: what follows them, numeric or not, does not
    change the result. *)
Theorem version_parse_cuts_at_63 (ver : as_version) (pre rest : string) :
  all_chars numeric pre = true ->
  String.length pre = 63%nat ->
  as_version_from_string ver (pre ++ rest) = as_version_from_string ver pre.
Proof.
  intros Hnum Hlen. unfold as_version_from_string.
  destruct pre as [|c pre]; [discriminate|].
  pose proof Hnum as Hc. simpl in Hc. apply andb_prop in Hc. destruct Hc as [Hc _].
  change (String c pre ++ rest)%string with (String c (pre ++ rest)).
  rewrite !skip_whitespace_numeric by exact Hc.
  change (String c (pre ++ rest)) with (String c pre ++ rest)%string.
  rewrite copy_numeric_full by (assumption || lia).
  rewrite copy_numeric_fits by (assumption || lia). reflexivity.
Qed.

Lemma version_parse_cuts_at_63_witness :
  as_version_from_string stale_version (sixty_three_characters ++ ".5")
    = Ret (false, mk_version 7 1 3 4).
Proof.
  rewrite (version_parse_cuts_at_63 stale_version sixty_three_characters ".5").
  - reflexivity.
  - reflexivity.
  - reflexivity.
Defined.

Lemma scan_hu_converted (s : string) (value : N) (rest : string) :
  scan_hu s = Converted value rest -> (value <= 65535)%N.
Proof.
  unfold scan_hu. destruct s as [|c s]; [discriminate|].
  destruct (isdigit c); [|discriminate].
  destruct (scan_digits (String c s) 0) as [v r].
  destruct (v <=? 65535)%N eqn:E; [|discriminate].
  intros H. injection H as <- _. apply N.leb_le, E.
Qed.

(** X15.  A parse that succeeds assigns all four components: the version it
    leaves does not depend on what the object held before, and each of its
    components is at most 65535. *)
Theorem version_parse_success_is_complete (ver1 ver2 : as_version) (str : string)
    (parsed : as_version) :
  as_version_from_string ver1 str = Ret (true, parsed) ->
  as_version_from_string ver2 str = Ret (true, parsed)
  /\ version_wf parsed.
Proof.
  unfold as_version_from_string.
  generalize (copy_numeric (skip_whitespace str) 0). intros buf.
  cbn [sscanf_hu_dots]. change (0 =? 0) with true. cbv iota.
  change (0 + 1 =? 0) with false. change (0 + 1 + 1 =? 0) with false.
  change (0 + 1 + 1 + 1 =? 0) with false. cbv iota.
  repeat match goal with
  | |- context [scan_hu ?s] =>
      let E := fresh "E" in
      destruct (scan_hu s) as [? ?| | |] eqn:E;
      [apply scan_hu_converted in E| | |]
  | |- context [match ?s with EmptyString => _ | String _ _ => _ end] =>
      destruct s as [|? ?]
  | |- context [if is_dot ?c then _ else _] => destruct (is_dot c)
  end;
  cbn [bind]; try discriminate;
  intros H; injection H as <-;
  (split; [reflexivity|unfold version_wf; cbn; repeat split; assumption || lia]).
Qed.

Lemma version_parse_success_is_complete_witness :
  as_version_from_string (mk_version 0 0 0 0) "7.1.0" = Ret (true, mk_version 7 1 0 0)
  /\ version_wf (mk_version 7 1 0 0).
Proof.
  apply (version_parse_success_is_complete stale_version (mk_version 0 0 0 0) "7.1.0").
  reflexivity.
Defined.

(** X16.  On versions of 16-bit components the result of
    [as_version_compare] lies between -65535 and 65535: the subtraction of
    two components never leaves the range of [int]; and its sign is the
    order of the first components that differ. *)
Theorem version_compare_range (ver1 ver2 : as_version) :
  version_wf ver1 -> version_wf ver2 ->
  -65535 <= as_version_compare ver1 ver2 <= 65535
  /\ (as_version_compare ver1 ver2 < 0 <->
      (major ver1 < major ver2
       \/ (major ver1 = major ver2 /\
           (minor ver1 < minor ver2
            \/ (minor ver1 = minor ver2 /\
                (patch ver1 < patch ver2
                 \/ (patch ver1 = patch ver2 /\ build ver1 < build ver2))))))%N).
Proof.
  intros (Ha1 & Hb1 & Hc1 & Hd1) (Ha2 & Hb2 & Hc2 & Hd2).
  unfold as_version_compare.
  destruct (N.eqb_spec (major ver1) (major ver2)) as [Ea|Ea]; cbn [negb]; [|lia].
  destruct (N.eqb_spec (minor ver1) (minor ver2)) as [Eb|Eb]; cbn [negb]; [|lia].
  destruct (N.eqb_spec (patch ver1) (patch ver2)) as [Ec|Ec]; cbn [negb]; [|lia].
  destruct (N.eqb_spec (build ver1) (build ver2)) as [Ed|Ed]; cbn [negb]; lia.
Qed.

Lemma version_compare_range_witness :
  -65535 <= as_version_compare (mk_version 0 9 9 9) (mk_version 65535 0 0 0) <= 65535
  /\ as_version_compare (mk_version 0 9 9 9) (mk_version 65535 0 0 0) = -65535.
Proof.
  split; [|reflexivity].
  apply (version_compare_range (mk_version 0 9 9 9) (mk_version 65535 0 0 0));
    repeat split; vm_compute; discriminate.
Defined.

Lemma string_app_assoc (s t u : string) :
  ((s ++ t) ++ u = s ++ t ++ u)%string.
Proof. induction s as [|c s IH]; simpl; [reflexivity|]. rewrite IH. reflexivity. Qed.

Lemma copy_numeric_app (s t : string) :
  all_chars numeric s = true ->
  forall n, 0 <= n -> n + Z.of_nat (String.length s) <= 63 ->
  copy_numeric (s ++ t) n = (s ++ copy_numeric t (n + Z.of_nat (String.length s)))%string.
Proof.
  induction s as [|c s IH]; intros H n Hn Hfit.
  - cbn [append String.length]. rewrite Z.add_0_r. reflexivity.
  - simpl in H. apply andb_prop in H. destruct H as [Hc Hs].
    cbn [String.length] in *. cbn [append copy_numeric].
    fold (numeric c). rewrite Hc.
    destruct (numeric_not_skipped c Hc) as [_ ->].
    destruct (n <? 64 - 1) eqn:E; [|zbool; lia].
    cbn [negb andb]. rewrite IH by (assumption || lia).
    do 3 f_equal. lia.
Qed.

(** X17.  Behind four components a dot and whatever follows are ignored: a
    string of five or more components parses to its first four. *)
Theorem version_parse_ignores_fifth_component (ver : as_version) (a b c d : N)
    (rest : string) :
  (a <= 65535)%N -> (b <= 65535)%N -> (c <= 65535)%N -> (d <= 65535)%N ->
  as_version_from_string ver (dotted [a; b; c; d] ++ "." ++ rest)
    = Ret (true, mk_version a b c d).
Proof.
  intros Ha Hb Hc Hd. unfold as_version_from_string.
  pose proof (dotted_numeric [a; b; c; d]) as Hnum.
  pose proof (dotted_length [a; b; c; d] ltac:(repeat constructor; assumption)) as Hlen.
  cbn [length] in Hlen.
  destruct (print_hu_head a) as (c0 & s0 & Hs0 & Hc0).
  assert (Hskip : skip_whitespace (dotted [a; b; c; d] ++ "." ++ rest)
                  = (dotted [a; b; c; d] ++ "." ++ rest)%string).
  { unfold dotted. cbn [map String.concat]. rewrite Hs0. cbn [append].
    apply skip_whitespace_numeric, Hc0. }
  rewrite Hskip, copy_numeric_app by (assumption || lia).
  set (n := 0 + Z.of_nat (String.length (dotted [a; b; c; d]))).
  assert (Hn : 0 <= n <= 23) by (unfold n; lia).
  change ("." ++ rest)%string with (String "." rest). cbn [copy_numeric].
  change (is_nul ".") with false. change (isdigit "." || is_dot ".") with true.
  destruct (n <? 64 - 1) eqn:E; [|zbool; lia]. cbn [negb andb].
  generalize (copy_numeric rest (n + 1)). intros tail.
  unfold dotted. cbn [map String.concat].
  rewrite !string_app_assoc.
  pose proof (fun r => scan_hu_print_hu a r Ha) as Sa.
  pose proof (fun r => scan_hu_print_hu b r Hb) as Sb.
  pose proof (fun r => scan_hu_print_hu c r Hc) as Sc.
  pose proof (fun r => scan_hu_print_hu d r Hd) as Sd.
  clear - Sa Sb Sc Sd. revert Sa Sb Sc Sd.
  generalize (print_hu a) (print_hu b) (print_hu c) (print_hu d).
  intros pa pb pc pd Sa Sb Sc Sd.
  cbn [sscanf_hu_dots]. change (0 =? 0) with true. cbv iota.
  rewrite Sa by reflexivity.
  change (0 + 1 =? 0) with false. cbn [append]. change (is_dot ".") with true. cbv iota.
  rewrite Sb by reflexivity.
  change (0 + 1 + 1 =? 0) with false. cbn [append]. change (is_dot ".") with true. cbv iota.
  rewrite Sc by reflexivity.
  change (0 + 1 + 1 + 1 =? 0) with false. cbn [append]. change (is_dot ".") with true.
  cbv iota.
  rewrite Sd by reflexivity.
  reflexivity.
Qed.

Lemma version_parse_ignores_fifth_component_witness :
  as_version_from_string stale_version (dotted [7; 1; 0; 2]%N ++ "." ++ "99999.x")
    = Ret (true, mk_version 7 1 0 2).
Proof.
  apply (version_parse_ignores_fifth_component stale_version 7 1 0 2 "99999.x")%N;
    vm_compute; discriminate.
Defined.

(** ** The vector scan callback *)

Lemma skipn_next (A : Type) (l : list A) (i : nat) :
  (i < length l)%nat -> exists x, skipn i l = x :: skipn (S i) l.
Proof.
  revert l. induction i as [|i IH]; intros [|x l] H; simpl in H; try lia.
  - exists x. reflexivity.
  - destruct (IH l ltac:(lia)) as (y & Hy). exists y. exact Hy.
Qed.

Lemma load8_in_bounds (buf : list byte) (i : Z) :
  0 <= i < Z.of_nat (length buf) ->
  exists b, load8 buf i = Ret b
            /\ skipn (Z.to_nat i) buf = b :: skipn (S (Z.to_nat i)) buf.
Proof.
  intros Hi. destruct (skipn_next _ buf (Z.to_nat i) ltac:(lia)) as (b & Hb).
  exists b. split; [|exact Hb].
  unfold load8. rewrite slice_in_bounds by lia. rewrite Hb. reflexivity.
Qed.

Lemma load8_out_of_bounds (buf : list byte) (i : Z) :
  Z.of_nat (length buf) <= i -> load8 buf i = Undefined.
Proof.
  intros Hi. unfold load8. rewrite slice_out_of_bounds by lia. reflexivity.
Qed.

Lemma hex_digit_spec (d : Z) :
  0 <= d < 16 ->
  is_lower_hex (hex_digit d) = true /\ hex_value (hex_digit d) = d.
Proof.
  intros H.
  assert (Hd : d = 0 \/ d = 1 \/ d = 2 \/ d = 3 \/ d = 4 \/ d = 5 \/ d = 6 \/ d = 7
               \/ d = 8 \/ d = 9 \/ d = 10 \/ d = 11 \/ d = 12 \/ d = 13 \/ d = 14
               \/ d = 15) by lia.
  repeat (destruct Hd as [->|Hd]; [split; reflexivity|]).
  subst d. split; reflexivity.
Qed.

Lemma hex_text_spec (bs : list byte) :
  length (hex_text bs) = (2 * length bs)%nat
  /\ forallb is_lower_hex (hex_text bs) = true
  /\ unhex_text (hex_text bs) = bs.
Proof.
  induction bs as [|b bs (IHlen & IHhex & IHun)]; [repeat split|].
  pose proof (Z_of_byte_range b) as Hb.
  destruct (hex_digit_spec (Z_of_byte b / 16)) as [Hh1 Hv1];
    [Z.to_euclidean_division_equations; lia|].
  destruct (hex_digit_spec (Z_of_byte b mod 16)) as [Hh2 Hv2];
    [Z.to_euclidean_division_equations; lia|].
  unfold hex_text in *. cbn [flat_map app length forallb unhex_text].
  rewrite IHlen, IHhex, IHun, Hh1, Hh2, Hv1, Hv2.
  repeat split; [lia|]. f_equal.
  apply byte_of_Z_eq. rewrite <- Z.mod_small with (b := 256) by lia.
  f_equal. Z.to_euclidean_division_equations. lia.
Qed.

Lemma digest_loop_writes (digest : list byte) :
  forall (n : nat) (i : Z) (pre rest : list byte),
    0 <= i -> Z.of_nat (length pre) = i * 2 ->
    i + Z.of_nat n <= Z.of_nat (length digest) ->
    (2 * n + 1 <= length rest)%nat ->
    exists rest',
      digest_loop digest n i (pre ++ rest)
        = Ret (pre ++ hex_text (firstn n (skipn (Z.to_nat i) digest)) ++ rest')
      /\ length rest' = (length rest - 2 * n)%nat.
Proof.
  induction n as [|n IH]; intros i pre rest Hi Hpre Hfit Hrest.
  - exists rest. split; [reflexivity|lia].
  - cbn [digest_loop].
    destruct (load8_in_bounds digest i ltac:(lia)) as (b & -> & Hskip).
    cbn [bind].
    destruct (split_chunk 3 rest ltac:(lia)) as (c3 & rest2 & -> & Hc3 & Hrest2).
    rewrite (store_at pre c3 rest2 (sprintf_02x b) (i * 2)) by (auto; lia).
    cbn [bind]. unfold sprintf_02x.
    change (pre ++ [hex_digit (Z_of_byte b / 16); hex_digit (Z_of_byte b mod 16); x00]
              ++ rest2)
      with (pre ++ [hex_digit (Z_of_byte b / 16); hex_digit (Z_of_byte b mod 16)]
              ++ (x00 :: rest2)).
    rewrite app_assoc.
    destruct (IH (i + 1) (pre ++ [hex_digit (Z_of_byte b / 16);
                                  hex_digit (Z_of_byte b mod 16)]) (x00 :: rest2))
      as (rest' & Hloop & Hlen).
    + lia.
    + rewrite length_app. cbn [length]. lia.
    + lia.
    + cbn [length]. rewrite length_app in Hrest. lia.
    + exists rest'. split.
      * rewrite Hloop, Hskip. cbn [firstn]. unfold hex_text. cbn [flat_map].
        replace (Z.to_nat (i + 1)) with (S (Z.to_nat i)) by lia.
        rewrite <- !app_assoc. reflexivity.
      * rewrite Hlen. cbn [length]. rewrite length_app. lia.
Qed.

(** X18.  Given a digest of at least 20 bytes, [vector_scan_callback] stays
    inside its array of 41 characters, returns [true], and leaves in the
    array the first 20 bytes of the digest as 40 lowercase hexadecimal
    digits and a NUL, whatever the array held; the text determines the 20
    bytes. *)
Theorem vector_scan_callback_digest (digest digest_str : list byte) :
  (20 <= length digest)%nat -> length digest_str = 41%nat ->
  vector_scan_callback digest digest_str
    = Ret (true, hex_text (firstn 20 digest) ++ [x00])
  /\ length (hex_text (firstn 20 digest)) = 40%nat
  /\ forallb is_lower_hex (hex_text (firstn 20 digest)) = true
  /\ unhex_text (hex_text (firstn 20 digest)) = firstn 20 digest.
Proof.
  intros Hdigest Hstr.
  destruct (hex_text_spec (firstn 20 digest)) as (Hlen & Hhex & Hun).
  rewrite length_firstn in Hlen.
  split; [|split; [lia|split; assumption]].
  unfold vector_scan_callback.
  destruct (digest_loop_writes digest 20 0 [] digest_str) as (rest' & Hloop & Hrest');
    try (cbn [length]; lia).
  cbn [app] in Hloop. change (Z.to_nat 0) with 0%nat in Hloop.
  change (skipn 0 digest) with digest in Hloop.
  rewrite Hloop. cbn [bind].
  rewrite (store_tail (hex_text (firstn 20 digest)) rest' [x00] 40)
    by (cbn [length]; lia).
  reflexivity.
Qed.

Lemma vector_scan_callback_digest_witness :
  vector_scan_callback sample_digest stale_digest_str
    = Ret (true, hex_text (firstn 20 sample_digest) ++ [x00])
  /\ unhex_text (hex_text (firstn 20 sample_digest)) = firstn 20 sample_digest.
Proof.
  destruct (vector_scan_callback_digest sample_digest stale_digest_str)
    as (H & _ & _ & Hun).
  - vm_compute. lia.
  - reflexivity.
  - split; [exact H|exact Hun].
Defined.

(** X19.  On a digest of fewer than 20 bytes the callback reads behind the
    end of the digest: its behaviour is undefined. *)
Theorem vector_scan_callback_short_digest (digest digest_str : list byte) :
  (length digest < 20)%nat -> length digest_str = 41%nat ->
  vector_scan_callback digest digest_str = Undefined.
Proof.
  intros Hdigest Hstr. unfold vector_scan_callback.
  assert (Hloop : forall n i pre rest,
             0 <= i <= Z.of_nat (length digest) ->
             Z.of_nat (length pre) = i * 2 ->
             (2 * n + 1 <= length rest)%nat ->
             Z.of_nat (length digest) < i + Z.of_nat n ->
             digest_loop digest n i (pre ++ rest) = Undefined).
  { induction n as [|n IH]; intros i pre rest Hi Hpre Hrest Hshort.
    - lia.
    - cbn [digest_loop].
      destruct (Z_lt_le_dec i (Z.of_nat (length digest))) as [Hin|Hout].
      + destruct (load8_in_bounds digest i ltac:(lia)) as (b & -> & _).
        cbn [bind].
        destruct (split_chunk 3 rest ltac:(lia)) as (c3 & rest2 & -> & Hc3 & Hrest2).
        rewrite (store_at pre c3 rest2 (sprintf_02x b) (i * 2)) by (auto; lia).
        cbn [bind]. unfold sprintf_02x.
        change (pre ++ [hex_digit (Z_of_byte b / 16); hex_digit (Z_of_byte b mod 16);
                        x00] ++ rest2)
          with (pre ++ [hex_digit (Z_of_byte b / 16); hex_digit (Z_of_byte b mod 16)]
                  ++ (x00 :: rest2)).
        rewrite app_assoc. apply IH.
        * lia.
        * rewrite length_app. cbn [length]. lia.
        * cbn [length]. rewrite length_app in Hrest. lia.
        * lia.
      + rewrite load8_out_of_bounds by lia. reflexivity. }
  change digest_str with ([] ++ digest_str).
  rewrite (Hloop 20%nat 0 [] digest_str) by (cbn [length]; lia).
  reflexivity.
Qed.

Lemma vector_scan_callback_short_digest_witness :
  vector_scan_callback (firstn 19 sample_digest) stale_digest_str = Undefined.
Proof.
  apply vector_scan_callback_short_digest.
  - vm_compute. lia.
  - reflexivity.
Defined.

(** ** Arrays shorter than [count] *)

Lemma append_loop_runs_out (arr : list byte) (width : Z) :
  0 < width ->
  forall (n : nat) (i : Z) (v : as_vector),
    0 <= i -> i * width <= Z.of_nat (length arr) ->
    Z.of_nat (length arr) < (i + Z.of_nat n) * width ->
    append_loop (fun j => slice arr (j * width) width) n i v = Undefined.
Proof.
  intros Hw. induction n as [|n IH]; intros i v Hi Hin Hout; [lia|].
  cbn [append_loop].
  destruct (Z_le_gt_dec ((i + 1) * width) (Z.of_nat (length arr))) as [Hnext|Hnext].
  - rewrite slice_in_bounds by nia. cbn [bind]. apply IH; lia.
  - rewrite slice_out_of_bounds by nia. reflexivity.
Qed.

(** X20.  A constructor reads [count] elements whatever the array holds:
    given an array of fewer than [count] elements it reads behind its end,
    and its behaviour is undefined. *)
Theorem constructor_needs_count_elements width init (v0 : as_vector)
    (arr : list byte) (count : Z) :
  In (width, init) constructors ->
  1 <= count ->
  Z.of_nat (length arr) < count * width ->
  init (Some v0) (Some arr) count = Undefined.
Proof.
  intros Hin Hcount Hshort.
  destruct (constructors_are_ml_vector_init _ _ Hin) as [-> Hw].
  unfold ml_vector_init. destruct (count =? 0) eqn:E; [zbool; lia|].
  rewrite (append_loop_runs_out arr width) by lia. reflexivity.
Qed.

Lemma constructor_needs_count_elements_witness :
  as_ml_vector_init_int64 (Some fresh_vector) (Some four_floats) 3 = Undefined.
Proof.
  apply (constructor_needs_count_elements 8 as_ml_vector_init_int64).
  - right. right. right. left. reflexivity.
  - discriminate.
  - reflexivity.
Defined.

(** ** Strings without a version *)

(** X21.  A string in which the first character behind the leading white
    space is not a digit (the empty string, white space alone, a sign, a
    letter, a dot) does not parse: the result is [false] and the version
    object is as it was. *)
Theorem version_parse_needs_a_leading_digit (ver : as_version) (ws rest : string) :
  all_chars skipped ws = true ->
  match rest with
  | EmptyString => True
  | String c _ => skipped c = false /\ isdigit c = false
  end ->
  as_version_from_string ver (ws ++ rest) = Ret (false, ver).
Proof.
  intros Hws Hrest. unfold as_version_from_string.
  rewrite skip_whitespace_app by exact Hws.
  destruct rest as [|c rest]; [reflexivity|].
  destruct Hrest as [Hskip Hdigit].
  cbn [skip_whitespace]. fold (skipped c). rewrite Hskip.
  cbn [copy_numeric]. rewrite Hdigit. cbn [orb].
  destruct (negb (is_nul c) && (0 <? 64 - 1)); [|reflexivity].
  destruct (is_dot c) eqn:Edot; [|reflexivity].
  cbn [sscanf_hu_dots]. change (0 =? 0) with true. cbv iota.
  unfold scan_hu. rewrite Hdigit. reflexivity.
Qed.

Lemma version_parse_needs_a_leading_digit_witness :
  as_version_from_string stale_version ("  " ++ "-7.1.0") = Ret (false, stale_version)
  /\ as_version_from_string stale_version (" " ++ "") = Ret (false, stale_version).
Proof.
  split.
  - apply (version_parse_needs_a_leading_digit stale_version "  " "-7.1.0").
    + reflexivity.
    + split; reflexivity.
  - apply (version_parse_needs_a_leading_digit stale_version " " "").
    + reflexivity.
    + exact I.
Defined.
